(** * chonker8 helper scripts: a shallow embedding and its properties

    The repository's Python scripts drive an external renderer, download
    model files, scan captured diagnostics and emit a Kitty graphics frame.
    Each script is embedded below as a function over an explicit model of
    the part of the outside world it touches (file system, HTTP replies,
    child processes), followed by the properties of the specification. *)

From Stdlib Require Import NArith ZArith List Ascii Bool Lia Sorted.
From Stdlib.Strings Require Import Byte.
From stdpp Require Import gmap strings.

Local Open Scope list_scope.

(** ** Shared vocabulary *)

(** Text (a Python [str] restricted to ASCII) is a list of characters. *)
Abbreviation text := (list ascii).

Definition txt (s : string) : text := String.list_ascii_of_string s.

(** Python exceptions that the scripts can meet. All of them derive from
    [Exception]. *)
Inductive exn :=
| FileNotFoundError
| PermissionError
| FileExistsError
| ConnectionError
| HTTPError
| ChunkedEncodingError
| ValueError
| TimeoutExpired.

Inductive outcome (A : Type) :=
| Ok (a : A)
| Raise (e : exn).
Arguments Ok {A} a.
Arguments Raise {A} e.

(** A regular file: permission bits of the running user and contents. *)
Record file := File {
  readable : bool;
  writable : bool;
  data : list byte
}.

(** ** base64.b64encode (RFC 4648, standard alphabet, with padding) *)
Module Base64.

Definition alphabet : text :=
  txt "ABCDEFGHIJKLMNOPQRSTUVWXYZabcdefghijklmnopqrstuvwxyz0123456789+/".

Definition pad : ascii := "="%char.

Definition b64_char (n : N) : ascii := nth (N.to_nat n) alphabet pad.

(** The four sextets of a group of three bytes. *)
Definition sextet0 (b0 : N) : N := N.shiftr b0 2.
Definition sextet1 (b0 b1 : N) : N :=
  N.lor (N.shiftl (N.land b0 3) 4) (N.shiftr b1 4).
Definition sextet2 (b1 b2 : N) : N :=
  N.lor (N.shiftl (N.land b1 15) 2) (N.shiftr b2 6).
Definition sextet3 (b2 : N) : N := N.land b2 63.

Fixpoint b64encode (bs : list byte) : text :=
  match bs with
  | [] => []
  | [b0] =>
      let n0 := Byte.to_N b0 in
      [b64_char (sextet0 n0); b64_char (sextet1 n0 0); pad; pad]
  | [b0; b1] =>
      let n0 := Byte.to_N b0 in
      let n1 := Byte.to_N b1 in
      [b64_char (sextet0 n0); b64_char (sextet1 n0 n1);
       b64_char (sextet2 n1 0); pad]
  | b0 :: b1 :: b2 :: rest =>
      let n0 := Byte.to_N b0 in
      let n1 := Byte.to_N b1 in
      let n2 := Byte.to_N b2 in
      b64_char (sextet0 n0) :: b64_char (sextet1 n0 n1) ::
      b64_char (sextet2 n1 n2) :: b64_char (sextet3 n2) :: b64encode rest
  end.

(** Decoding, the inverse transform of RFC 4648: groups of four characters,
    padding only in the last group. *)
Fixpoint index_from (i : N) (c : ascii) (l : text) : option N :=
  match l with
  | [] => None
  | a :: l' => if Ascii.eqb a c then Some i else index_from (N.succ i) c l'
  end.

Definition b64_index (c : ascii) : option N := index_from 0 c alphabet.

Definition octet0 (s0 s1 : N) : N := N.lor (N.shiftl s0 2) (N.shiftr s1 4).
Definition octet1 (s1 s2 : N) : N :=
  N.lor (N.shiftl (N.land s1 15) 4) (N.shiftr s2 2).
Definition octet2 (s2 s3 : N) : N := N.lor (N.shiftl (N.land s2 3) 6) s3.

Definition bytes_of (ns : list N) : option (list byte) :=
  foldr (fun n acc =>
           match Byte.of_N n, acc with
           | Some b, Some bs => Some (b :: bs)
           | _, _ => None
           end) (Some []) ns.

Fixpoint b64decode (s : text) : option (list byte) :=
  match s with
  | [] => Some []
  | c0 :: c1 :: c2 :: c3 :: rest =>
      match b64_index c0, b64_index c1 with
      | Some s0, Some s1 =>
          if Ascii.eqb c2 pad then
            if Ascii.eqb c3 pad then
              match rest with
              | [] => bytes_of [octet0 s0 s1]
              | _ :: _ => None
              end
            else None
          else
            match b64_index c2 with
            | None => None
            | Some s2 =>
                if Ascii.eqb c3 pad then
                  match rest with
                  | [] => bytes_of [octet0 s0 s1; octet1 s1 s2]
                  | _ :: _ => None
                  end
                else
                  match b64_index c3, b64decode rest with
                  | Some s3, Some tl =>
                      match bytes_of [octet0 s0 s1; octet1 s1 s2; octet2 s2 s3] with
                      | Some hd => Some (hd ++ tl)
                      | None => None
                      end
                  | _, _ => None
                  end
            end
      | _, _ => None
      end
  | _ => None
  end.

(** Membership in the output alphabet of the encoder. *)
Definition is_b64_char (c : ascii) : bool :=
  match b64_index c with Some _ => true | None => Ascii.eqb c pad end.

(** Exhaustive checks over bytes and sextets, run by evaluation. *)
Section Checks.
Local Open Scope N_scope.

Definition below (n : nat) : list N := map N.of_nat (seq 0 n).

Definition all_below (n : nat) (P : N -> bool) : bool := forallb P (below n).

(** Everything the decoder needs to know about two neighbouring bytes. *)
Definition pair_check (a b : N) : bool :=
  (octet0 (sextet0 a) (sextet1 a b) =? a)
  && (N.land (sextet1 a b) 15 =? N.shiftr b 4)
  && (N.shiftr (sextet2 a b) 2 =? N.land a 15)
  && (N.land (sextet2 a b) 3 =? N.shiftr b 6)
  && (N.lor (N.shiftl (N.shiftr a 4) 4) (N.land a 15) =? a)
  && (N.lor (N.shiftl (N.shiftr a 6) 6) (sextet3 a) =? a)
  && (sextet0 a <? 64) && (sextet1 a b <? 64)
  && (sextet2 a b <? 64) && (sextet3 a <? 64).

Definition sextet_check (n : N) : bool :=
  match b64_index (b64_char n) with
  | Some m => (m =? n) && negb (Ascii.eqb (b64_char n) pad)
  | None => false
  end.

End Checks.

End Base64.

(** ** Canonical base64 texts *)
Module Base64Canon.

Import Base64.
Local Open Scope N_scope.

(** One of the 64 characters of the alphabet (not the padding). *)
Definition in_alphabet (c : ascii) : bool :=
  match b64_index c with
  | Some _ => true
  | None => false
  end.

(** An alphabet character whose sextet has the bits of the mask [k]
    cleared. *)
Definition low_bits_zero (k : N) (c : ascii) : bool :=
  match b64_index c with
  | Some s => N.land s k =? 0
  | None => false
  end.

Definition is_empty (p : text) : bool :=
  match p with
  | [] => true
  | _ :: _ => false
  end.

(** The texts of padded standard base64 (RFC 4648, sections 3.5 and 4):
    groups of four alphabet characters; only the last group may end in
    one or two padding characters, and then the bits of its last sextet
    that encode no data are zero. *)
Fixpoint canonical (p : text) : bool :=
  match p with
  | [] => true
  | c0 :: c1 :: c2 :: c3 :: rest =>
      if Ascii.eqb c2 pad then
        Ascii.eqb c3 pad && in_alphabet c0 && low_bits_zero 15 c1
        && is_empty rest
      else if Ascii.eqb c3 pad then
        in_alphabet c0 && in_alphabet c1 && low_bits_zero 3 c2
        && is_empty rest
      else
        in_alphabet c0 && in_alphabet c1 && in_alphabet c2
        && in_alphabet c3 && canonical rest
  | _ => false
  end.

(** What the encoder needs to know about three neighbouring sextets,
    checked by evaluation. *)
Definition sextets_check (a b c : N) : bool :=
  (sextet0 (octet0 a b) =? a)
  && (sextet1 (octet0 a b) (octet1 b c) =? b)
  && (sextet2 (octet1 a b) (octet2 b c) =? b)
  && (sextet3 (octet2 a b) =? b)
  && (octet0 a b <=? 255) && (octet1 a b <=? 255) && (octet2 a b <=? 255)
  && (if N.land b 15 =? 0 then sextet1 (octet0 a b) 0 =? b else true)
  && (if N.land b 3 =? 0 then sextet2 (octet1 a b) 0 =? b else true).

End Base64Canon.

(** ** kitty_test_simple.py: the Kitty graphics emission *)
Module KittyTestSimple.

Definition image_path : string := "vello_render_test.png".

Definition ESC : ascii := "027"%char.
Definition NL : ascii := "010"%char.

(** Lines 15 and 18: the argument of [sys.stdout.write]. *)
Definition frame (img_data : list byte) : text :=
  let encoded := Base64.b64encode img_data in
  [ESC] ++ txt "_Ga=T,f=100;" ++ encoded ++ [ESC; "\"%char].

(** Lines 11-12: [open(path, "rb")] followed by [f.read()]. *)
Definition read_file (fs : gmap string file) (path : string)
  : outcome (list byte) :=
  match fs !! path with
  | None => Raise FileNotFoundError
  | Some f => if readable f then Ok (data f) else Raise PermissionError
  end.

(** The renderer started on line 8 is an external program: it cannot be
    spawned, or it never exits (the call has no timeout), or it exits
    after some effect on the file system. Its own output is captured. *)
Inductive child :=
| SpawnFails
| NeverExits
| Runs (effect : gmap string file -> gmap string file).

(** What a run of the script does: it stops with an outcome, or waits for
    the child for ever. *)
Inductive ending :=
| Stops (r : outcome unit)
| Waits.

(** The script; the second component lists the texts written to standard
    output, one per write. *)
Definition script (renderer : child) (fs : gmap string file)
  : ending * list text :=
  match renderer with
  | SpawnFails => (Stops (Raise FileNotFoundError), [])
  | NeverExits => (Waits, [])
  | Runs effect =>
      match read_file (effect fs) image_path with
      | Raise e => (Stops (Raise e), [])
      | Ok img_data =>
          (Stops (Ok tt),
           [frame img_data;
            [NL; NL] ++ txt "PDF should be visible above in Kitty terminal"
                     ++ [NL];
            txt "The birth certificate has been rendered via Vello (GPU-accelerated)"
                     ++ [NL]])
      end
  end.

(** Reading a frame back: the text between the control section and the
    terminator. *)
Fixpoint strip_prefix (p s : text) : option text :=
  match p, s with
  | [], _ => Some s
  | a :: p', b :: s' => if Ascii.eqb a b then strip_prefix p' s' else None
  | _ :: _, [] => None
  end.

Definition strip_suffix (p s : text) : option text :=
  option_map (@rev ascii) (strip_prefix (rev p) (rev s)).

Definition frame_payload (w : text) : option text :=
  match strip_prefix ([ESC] ++ txt "_Ga=T,f=100;") w with
  | Some r => strip_suffix [ESC; "\"%char] r
  | None => None
  end.

End KittyTestSimple.

(** ** Marker scanning (test_table_pdf.py, demo_chonker8_hot.py) *)
Module OutputInspector.

Definition NL : ascii := "010"%char.

(** [s.startswith(p)] *)
Fixpoint starts_with (p s : text) : bool :=
  match p, s with
  | [], _ => true
  | a :: p', b :: s' => Ascii.eqb a b && starts_with p' s'
  | _ :: _, [] => false
  end.

(** Python's [p in s] on strings. *)
Fixpoint contains (p s : text) : bool :=
  starts_with p s ||
  match s with
  | [] => false
  | _ :: s' => contains p s'
  end.

(** [s.split('\n')]: never empty, a trailing newline gives a last empty
    line. *)
Fixpoint split_lines (s : text) : list text :=
  match s with
  | [] => [[]]
  | c :: s' =>
      if Ascii.eqb c NL then [] :: split_lines s'
      else match split_lines s' with
           | l :: ls => (c :: l) :: ls
           | [] => [[c]]
           end
  end.

(** What the scan prints. *)
Inductive report :=
| TablesDetected
| Echo (line : text).

(** Line 25: the condition of the [if]. *)
Definition tables_gate (stderr : text) : bool :=
  contains (txt "LayoutAnalysis") stderr
  || contains (txt "has_tables=true") stderr.

(** Line 28: the condition on a line in the first branch. *)
Definition detail_line (line : text) : bool :=
  contains (txt "has_tables") line
  || contains (txt "LayoutAnalysis") line
  || contains (txt "LayoutLM") line.

(** Line 33: the condition on a line in the second branch. *)
Definition flag_line (line : text) : bool :=
  contains (txt "has_tables=") line.

(** test_table_pdf.py, lines 25-35. The second loop stops at its first
    hit ([break]). *)
Definition scan (stderr : text) : list report :=
  if tables_gate stderr
  then
    TablesDetected :: map Echo (List.filter detail_line (split_lines stderr))
  else
    match List.find flag_line (split_lines stderr) with
    | Some line => [Echo line]
    | None => []
    end.

(** The patterns tested line by line in that loop. *)
Definition line_rules : list text :=
  [txt "has_tables"; txt "LayoutAnalysis"; txt "LayoutLM"; txt "has_tables="].

(** The lines that the scan echoes and that contain the pattern [p]. *)
Definition echoed_for (p stderr : text) : list text :=
  flat_map (fun r => match r with
                     | Echo l => if contains p l then [l] else []
                     | TablesDetected => []
                     end) (scan stderr).

(** demo_chonker8_hot.py, line 34 (and line 18 for the first marker). *)
Definition decoded (stderr : text) : bool :=
  contains (txt "[VELLO] Successfully decoded image") stderr.

Definition rendered (stdout : text) : bool :=
  contains (txt "Successfully rendered page!") stdout.

(** The specification's reading of a rule: the pattern occurs within at
    least one line of the text, each rule on its own. *)
Definition spec_matching_lines (p s : text) : list text :=
  List.filter (contains p) (split_lines s).

Definition spec_matches (p s : text) : bool :=
  existsb (contains p) (split_lines s).

(** A text without a newline character. *)
Definition one_line (p : text) : bool :=
  forallb (fun c => negb (Ascii.eqb c NL)) p.

(** Every pattern that the two scripts look for. *)
Definition script_patterns : list text :=
  [txt "LayoutAnalysis"; txt "has_tables=true"; txt "has_tables";
   txt "LayoutLM"; txt "has_tables=";
   txt "[VELLO] Successfully decoded image";
   txt "Successfully rendered page!"].

End OutputInspector.

(** ** Child processes (demo_chonker8_hot.py, test_table_pdf.py) *)
Module ProcessRunner.

Local Open Scope N_scope.

(** A child process as the scripts can observe it. Times are in
    milliseconds since the spawn. The output pipes of the child may also
    be held by others (a descendant that inherited them), who do not get
    the signals sent to the child. *)
Record process := Process {
  exits_at : option N;    (* when it exits unprompted; [None]: never *)
  term_delay : option N;  (* from SIGTERM to exit; [None]: SIGTERM ignored *)
  pipes_held_until : option N;
                          (* until when others keep its pipes open;
                             [Some 0]: nobody does, [None]: for ever *)
  stdout_at : N -> text;  (* written to its stdout pipe up to a time *)
  stderr_at : N -> text
}.

Inductive program :=
| Missing
| Starts (p : process).

Record observation := Observation {
  result : outcome (text * text);  (* (stdout, stderr) when returned *)
  running_after : bool;            (* is the child still running? *)
  elapsed : N
}.

(** The time at which a child is gone when SIGTERM is sent at [t_term]. *)
Definition gone_at (p : process) (t_term : N) : option N :=
  match exits_at p with
  | Some t =>
      if (t <=? t_term)%N then Some t
      else match term_delay p with
           | Some d => Some (N.min t (t_term + d))
           | None => Some t
           end
  | None =>
      match term_delay p with
      | Some d => Some (t_term + d)
      | None => None
      end
  end.

(** The time at which both pipes are at end-of-file, for a child gone at
    [gone]: [communicate] reads until then. *)
Definition eof_at (p : process) (gone : N) : option N :=
  match pipes_held_until p with
  | Some h => Some (N.max gone h)
  | None => None
  end.


Definition returned (o : observation) : bool :=
  match result o with
  | Ok _ => true
  | Raise _ => false
  end.

Definition sleep_ms : N := 2000.
Definition communicate_timeout_ms : N := 1000.

(** demo_chonker8_hot.py, lines 24-32: [Popen], [time.sleep(2)],
    [proc.terminate()], [proc.communicate(timeout=1)]. There is no
    [try] around them. [communicate] returns once both pipes are at
    end-of-file and the child has been waited for; at its deadline it
    raises [TimeoutExpired] and kills nobody, so that the child is left
    running when it is not gone by then. *)
Definition popen_terminate_communicate (prog : program) : observation :=
  match prog with
  | Missing => Observation (Raise FileNotFoundError) false 0
  | Starts p =>
      let deadline := (sleep_ms + communicate_timeout_ms)%N in
      match gone_at p sleep_ms with
      | Some d =>
          match eof_at p d with
          | Some t =>
              if (t <=? deadline)%N
              then Observation (Ok (stdout_at p t, stderr_at p t)) false
                               (N.max sleep_ms t)
              else Observation (Raise TimeoutExpired) (deadline <? d)%N
                               deadline
          | None =>
              Observation (Raise TimeoutExpired) (deadline <? d)%N deadline
          end
      | None => Observation (Raise TimeoutExpired) true deadline
      end
  end.

(** [subprocess.run(..., capture_output=True, text=True, timeout=T)]:
    it returns once the child has exited and both pipes are at
    end-of-file; at the deadline the child is killed and waited for, then
    [TimeoutExpired] is raised again. *)
Definition run_with_timeout (T : N) (prog : program) : observation :=
  match prog with
  | Missing => Observation (Raise FileNotFoundError) false 0
  | Starts p =>
      match exits_at p with
      | Some t =>
          match eof_at p t with
          | Some u =>
              if (u <=? T)%N
              then Observation (Ok (stdout_at p u, stderr_at p u)) false u
              else Observation (Raise TimeoutExpired) false T
          | None => Observation (Raise TimeoutExpired) false T
          end
      | None => Observation (Raise TimeoutExpired) false T
      end
  end.

End ProcessRunner.

(** ** demo_chonker8_hot.py, step 2 *)
Module DemoChonker8Hot.

Inductive printed :=
| Loading
| DecodedOk.


End DemoChonker8Hot.

(** ** test_table_pdf.py *)
Module TestTablePdf.

Definition test_pdfs : list string :=
  ["/Users/jack/Desktop/BERF-CERT.pdf";
   "/Users/jack/Desktop/17.pdf";
   "/Users/jack/Desktop/Testing_the_waters_for_floating_class_7.5M___Philadelphia_Daily_News_PA___February_17_2025__pX10.pdf"].

Inductive printed :=
| Looking
| Testing (pdf : string)
| Scanned (r : OutputInspector.report)
| Blank.

(** Lines 14-36; [spawn pdf] is the renderer started on that file. *)
Fixpoint loop (spawn : string -> ProcessRunner.program) (pdfs : list string)
  : outcome unit * list printed :=
  match pdfs with
  | [] => (Ok tt, [])
  | pdf :: rest =>
      match ProcessRunner.result
              (ProcessRunner.run_with_timeout 5000 (spawn pdf)) with
      | Raise e => (Raise e, [Testing pdf])
      | Ok (_, stderr) =>
          let (r, out) := loop spawn rest in
          (r, Testing pdf :: map Scanned (OutputInspector.scan stderr)
                ++ Blank :: out)
      end
  end.

Definition script (spawn : string -> ProcessRunner.program)
  : outcome unit * list printed :=
  let (r, out) := loop spawn test_pdfs in (r, Looking :: out).

End TestTablePdf.

(** ** download_trocr_onnx.py *)
Module DownloadTrocrOnnx.

(** The [content-length] header as [int(response.headers.get(..., 0))]
    sees it. *)
Inductive content_length :=
| Absent
| Malformed
| Length (n : Z).

Inductive body_end :=
| Complete
| Broken.

(** An HTTP reply: status, header, and the chunks that [iter_content]
    yields before the body ends or the connection breaks. *)
Record response := Response {
  status_ok : bool;
  header : content_length;
  chunks : list (list byte);
  ending : body_end
}.

Inductive reply :=
| Unreachable
| Reply (r : response).

Abbreviation network := (string -> reply).

(** The [print] calls. *)
Inductive message :=
| Banner
| BackingUp (backup : string)
| Announce
| Option1
| Option2
| Choosing
| DownloadingFrom (url : string)
| Progress (downloaded total_size : Z)
| Newline
| Downloaded (dest : string)
| FileSize (size : nat)
| EncoderNext
| DownloadedEncoder (dest : string)
| Failed (e : exn)
| Hints
| Done.

Inductive event :=
| Get (url : string)
| Mkdir (path : string)
| Rename (src dst : string)
| Open (path : string)
| Write (path : string) (chunk : list byte)
| Print (m : message).

Record world := World {
  fs : gmap string file;
  log : list event
}.

(** Computations: state passing with exceptions; the effects made before
    an exception stay. *)
Definition M (A : Type) : Type := world -> outcome A * world.

Definition ret {A} (a : A) : M A := fun w => (Ok a, w).
Definition raise {A} (e : exn) : M A := fun w => (Raise e, w).
Definition bind {A B} (m : M A) (k : A -> M B) : M B :=
  fun w => match m w with
           | (Ok a, w') => k a w'
           | (Raise e, w') => (Raise e, w')
           end.
Definition try_except {A} (m : M A) (h : exn -> M A) : M A :=
  fun w => match m w with
           | (Ok a, w') => (Ok a, w')
           | (Raise e, w') => h e w'
           end.

Notation "x <- m ;; k" := (bind m (fun x => k))
  (at level 100, m at next level, right associativity).
Notation "m ;; k" := (bind m (fun _ => k))
  (at level 100, right associativity).

Definition emit (e : event) : M unit :=
  fun w => (Ok tt, World (fs w) (log w ++ [e])).
Definition print (m : message) : M unit := emit (Print m).

(** [requests.get(url, stream=True)] *)
Definition requests_get (net : network) (url : string) : M response :=
  emit (Get url) ;;
  match net url with
  | Unreachable => raise ConnectionError
  | Reply r => ret r
  end.

Definition raise_for_status (r : response) : M unit :=
  if status_ok r then ret tt else raise HTTPError.

Definition header_int (h : content_length) : M Z :=
  match h with
  | Absent => ret 0%Z
  | Malformed => raise ValueError
  | Length n => ret n
  end.

(** [open(destination, 'wb')]: creates the file or empties it. *)
Definition open_wb (path : string) : M unit :=
  fun w =>
    match fs w !! path with
    | Some f =>
        if writable f
        then (Ok tt, World (<[path := File (readable f) true []]> (fs w))
                           (log w ++ [Open path]))
        else (Raise PermissionError, w)
    | None =>
        (Ok tt, World (<[path := File true true []]> (fs w))
                      (log w ++ [Open path]))
    end.

Definition append_data (chunk : list byte) (f : file) : file :=
  File (readable f) (writable f) (data f ++ chunk).

(** [f.write(chunk)] on the file opened at [path]. A write that fails
    (a full disk) is outside this model. *)
Definition write (path : string) (chunk : list byte) : M unit :=
  fun w =>
    (Ok tt,
     World (alter (append_data chunk) path (fs w))
           (log w ++ [Write path chunk])).

(** Lines 20-26; the counter [downloaded] is returned. *)
Fixpoint receive (path : string) (total_size : Z) (cs : list (list byte))
  (e : body_end) (downloaded : Z) : M Z :=
  match cs with
  | [] =>
      match e with
      | Complete => ret downloaded
      | Broken => raise ChunkedEncodingError
      end
  | chunk :: rest =>
      match chunk with
      | [] => receive path total_size rest e downloaded
      | _ :: _ =>
          write path chunk ;;
          let downloaded := (downloaded + Z.of_nat (length chunk))%Z in
          (if (total_size >? 0)%Z
           then print (Progress downloaded total_size)
           else ret tt) ;;
          receive path total_size rest e downloaded
      end
  end.

Definition download_file (net : network) (url destination : string)
  : M string :=
  response <- requests_get net url ;;
  raise_for_status response ;;
  total_size <- header_int (header response) ;;
  open_wb destination ;;
  receive destination total_size (chunks response) (ending response) 0%Z ;;
  print Newline ;;
  ret destination.

Definition models_dir : string := "models".
Definition existing_model : string := "models/trocr.onnx".
Definition backup_path : string := "models/trocr_pytorch.pth".
Definition dest_path : string := "models/trocr.onnx".
Definition encoder_path : string := "models/trocr_encoder.onnx".
Definition onnx_url : string :=
  "https://huggingface.co/Xenova/trocr-small-printed/resolve/main/onnx/decoder_model_merged.onnx".
Definition encoder_url : string :=
  "https://huggingface.co/Xenova/trocr-small-printed/resolve/main/onnx/encoder_model.onnx".

(** [models_dir.mkdir(exist_ok=True)]: directories are not tracked, a
    regular file of that name makes the call fail. *)
Definition mkdir_exist_ok (path : string) : M unit :=
  fun w =>
    match fs w !! path with
    | Some _ => (Raise FileExistsError, w)
    | None => (Ok tt, World (fs w) (log w ++ [Mkdir path]))
    end.

Definition path_exists (path : string) : M bool :=
  fun w => (Ok (bool_decide (is_Some (fs w !! path))), w).

(** [os.rename(src, dst)] on POSIX: an existing [dst] is replaced. A
    rename that the permissions of the directory forbid is outside this
    model. *)
Definition os_rename (src dst : string) : M unit :=
  fun w =>
    match fs w !! src with
    | None => (Raise FileNotFoundError, w)
    | Some f =>
        (Ok tt, World (<[dst := f]> (delete src (fs w)))
                      (log w ++ [Rename src dst]))
    end.

Definition stat_size (path : string) : M nat :=
  fun w =>
    match fs w !! path with
    | None => (Raise FileNotFoundError, w)
    | Some f => (Ok (length (data f)), w)
    end.

(** Lines 32-56. *)
Definition preamble : M unit :=
  print Banner ;;
  mkdir_exist_ok models_dir ;;
  present <- path_exists existing_model ;;
  (if present : bool
   then print (BackingUp backup_path) ;; os_rename existing_model backup_path
   else ret tt) ;;
  print Announce ;;
  print Option1 ;;
  print Option2 ;;
  print Choosing.

(** The body of the [try], lines 59-76. *)
Definition downloads (net : network) : M unit :=
  print (DownloadingFrom onnx_url) ;;
  download_file net onnx_url dest_path ;;
  print (Downloaded dest_path) ;;
  size <- stat_size dest_path ;;
  print (FileSize size) ;;
  print EncoderNext ;;
  download_file net encoder_url encoder_path ;;
  print (DownloadedEncoder encoder_path).

(** The handler, lines 78-85; [Hints] stands for the five lines of
    advice and [Some v] for [return v]. *)
Definition handler (e : exn) : M (option Z) :=
  print (Failed e) ;;
  print Hints ;;
  ret (Some 1%Z).

(** Lines 58-88: the [try] statement and what follows it. *)
Definition after_preamble (net : network) : M Z :=
  returned <- try_except (downloads net ;; ret None) handler ;;
  match returned with
  | Some v => ret v
  | None => print Done ;; ret 0%Z
  end.

Definition main (net : network) : M Z :=
  preamble ;;
  after_preamble net.

(** Line 91, [exit(main())]: the value returned is the exit status; an
    exception that leaves [main] is an uncaught fault. *)
Definition script (net : network) (files : gmap string file)
  : outcome Z * world :=
  main net (World files []).

(** Does the log rename [path] away before it first opens or writes it?
    (True when the path is never opened.) *)
Fixpoint renamed_before_write (path : string) (l : list event) : bool :=
  match l with
  | [] => true
  | Rename src _ :: l' =>
      if String.eqb src path then true else renamed_before_write path l'
  | Open p :: l' =>
      if String.eqb p path then false else renamed_before_write path l'
  | Write p _ :: l' =>
      if String.eqb p path then false else renamed_before_write path l'
  | _ :: l' => renamed_before_write path l'
  end.

Definition opened (path : string) (l : list event) : bool :=
  existsb (fun e => match e with
                    | Open p => String.eqb p path
                    | _ => false
                    end) l.

Definition gets (l : list event) : list string :=
  flat_map (fun e => match e with Get u => [u] | _ => [] end) l.

Definition progress_reports (l : list event) : list (Z * Z) :=
  flat_map (fun e => match e with
                     | Print (Progress d t) => [(d, t)]
                     | _ => []
                     end) l.

(** The values of [downloaded] after each non-empty chunk. *)
Fixpoint running_totals (downloaded : Z) (cs : list (list byte)) : list Z :=
  match cs with
  | [] => []
  | [] :: rest => running_totals downloaded rest
  | (_ :: _) as chunk :: rest =>
      let downloaded := (downloaded + Z.of_nat (length chunk))%Z in
      downloaded :: running_totals downloaded rest
  end.

Definition is_rename (e : event) : bool :=
  match e with
  | Rename _ _ => true
  | _ => false
  end.

Definition no_rename (e : event) : bool := negb (is_rename e).

(** The two destinations of the script. *)
Definition targets (q : string) : Prop := q = dest_path \/ q = encoder_path.

(** The events of a transfer into [path]: writes to it and prints. *)
Definition transfer_event (path : string) (e : event) : bool :=
  match e with
  | Write p _ => String.eqb p path
  | Print _ => true
  | _ => false
  end.

(** The runs of [download_file], case by case. *)
Inductive download_run (net : network) (url dest : string) (w : world)
  : outcome string -> world -> Prop :=
| run_unreachable :
    net url = Unreachable ->
    download_run net url dest w (Raise ConnectionError)
      (World (fs w) (log w ++ [Get url]))
| run_bad_status r :
    net url = Reply r -> status_ok r = false ->
    download_run net url dest w (Raise HTTPError)
      (World (fs w) (log w ++ [Get url]))
| run_bad_header r :
    net url = Reply r -> status_ok r = true -> header r = Malformed ->
    download_run net url dest w (Raise ValueError)
      (World (fs w) (log w ++ [Get url]))
| run_denied r f :
    net url = Reply r -> status_ok r = true -> header r <> Malformed ->
    fs w !! dest = Some f -> writable f = false ->
    download_run net url dest w (Raise PermissionError)
      (World (fs w) (log w ++ [Get url]))
| run_streamed r total_size rd evs :
    net url = Reply r -> status_ok r = true ->
    header_int (header r) w = (Ok total_size, w) ->
    match fs w !! dest with
    | Some f => writable f = true /\ rd = readable f
    | None => rd = true
    end ->
    forallb (transfer_event dest) evs = true ->
    progress_reports evs =
      (if (total_size >? 0)%Z
       then map (fun d => (d, total_size)) (running_totals 0 (chunks r))
       else []) ->
    download_run net url dest w
      (match ending r with
       | Complete => Ok dest
       | Broken => Raise ChunkedEncodingError
       end)
      (World (<[dest := File rd true (concat (chunks r))]> (fs w))
             (log w ++ [Get url; Open dest] ++ evs ++
              match ending r with
              | Complete => [Print Newline]
              | Broken => []
              end)).

(** What a computation may touch: it only adds events satisfying [P] to
    the log and leaves every path outside [D] as it was. *)
Definition footprint {A} (D : string -> Prop) (P : event -> bool) (m : M A)
  : Prop :=
  forall w, exists evs,
    log (snd (m w)) = log w ++ evs
    /\ forallb P evs = true
    /\ forall q, ~ D q -> fs (snd (m w)) !! q = fs w !! q.

End DownloadTrocrOnnx.

(** ** Sample inputs *)
Module Samples.

Import ProcessRunner DownloadTrocrOnnx.



Definition ten_bytes : list byte :=
  [x89; x50; x4e; x47; x0d; x0a; x1a; x0a; x00; x00].

Definition renders_ten_bytes (fs : gmap string file) : gmap string file :=
  <[KittyTestSimple.image_path := File true true ten_bytes]> fs.

(** A reply that announces 10 bytes and whose body yields 3 (a short or
    content-encoded body). *)
Definition short_body : network :=
  fun _ => Reply (Response true (Length 10) [[x01; x02; x03]] Complete).

(** A server that sends no length header. *)
Definition no_length : network :=
  fun _ => Reply (Response true Absent [[x01; x02; x03]; [x04]] Complete).

(** A server that delivers what it announces, in two chunks. *)
Definition honest : network :=
  fun _ => Reply (Response true (Length 4) [[x01; x02; x03]; [x04]] Complete).

(** A connection that breaks after the first chunk. *)
Definition breaks : network :=
  fun _ => Reply (Response true (Length 4) [[x01; x02; x03]] Broken).

Definition offline : network := fun _ => Unreachable.

Definition old_file : file := File true true [x6f; x6c; x64].
Definition older_file : file := File true true [x70].

End Samples.

(** ** demo_chonker8_hot.py, the whole script *)
Module DemoScript.

Import ProcessRunner.

(** The groups of [print] calls: lines 9-10, 13, 19-20, 23, 35-37, 39-42
    and 44-49. *)
Inductive printed :=
| Intro
| Step1
| Rendered
| Step2
| Decoded
| Capability
| Summary.

(** Lines 14-16, [subprocess.run] without a timeout: [None] when the
    child never exits or its pipes never reach end-of-file, so that the
    call never returns. *)
Definition run_to_completion (prog : program)
  : option (outcome (text * text)) :=
  match prog with
  | Missing => Some (Raise FileNotFoundError)
  | Starts p =>
      match exits_at p with
      | None => None
      | Some t =>
          match eof_at p t with
          | None => None
          | Some u => Some (Ok (stdout_at p u, stderr_at p u))
          end
      end
  end.

Inductive ending :=
| Stops (r : outcome unit)
| Waits.

(** [vello] is ./target/release/test_vello, [hot] is
    ./target/release/chonker8-hot on the PDF. *)
Definition script (vello hot : program) : ending * list printed :=
  match run_to_completion vello with
  | None => (Waits, [Intro; Step1])
  | Some (Raise e) => (Stops (Raise e), [Intro; Step1])
  | Some (Ok (stdout, _)) =>
      let so_far :=
        [Intro; Step1]
        ++ (if OutputInspector.rendered stdout then [Rendered] else [])
        ++ [Step2] in
      match result (popen_terminate_communicate hot) with
      | Raise e => (Stops (Raise e), so_far)
      | Ok (_, stderr) =>
          (Stops (Ok tt),
           so_far
           ++ (if OutputInspector.decoded stderr then [Decoded] else [])
           ++ [Capability; Summary])
      end
  end.

End DemoScript.

(** ** Helpers for stating properties of lines, reports and replies *)
Module Views.

Import OutputInspector DownloadTrocrOnnx.

(** ['\n'.join(lines)] *)
Fixpoint join_lines (ls : list text) : text :=
  match ls with
  | [] => []
  | [l] => l
  | l :: ls' => l ++ [NL] ++ join_lines ls'
  end.

(** The files named by the "Testing:" lines of test_table_pdf.py. *)
Definition tested (out : list TestTablePdf.printed) : list string :=
  flat_map (fun line => match line with
                        | TestTablePdf.Testing pdf => [pdf]
                        | _ => []
                        end) out.

(** The lines echoed by a scan. *)
Definition echoes (rs : list report) : list text :=
  flat_map (fun r => match r with
                     | Echo l => [l]
                     | TablesDetected => []
                     end) rs.


Definition nonempty (chunk : list byte) : bool :=
  match chunk with
  | [] => false
  | _ :: _ => true
  end.

(** The same reply without the empty chunks. *)
Definition without_empty_chunks (r : response) : response :=
  Response (status_ok r) (header r) (List.filter nonempty (chunks r))
           (ending r).

(** Does the first download fail before its destination is opened, when
    that destination does not exist? *)
Definition fails_early (rep : reply) : bool :=
  match rep with
  | Unreachable => true
  | Reply r =>
      negb (status_ok r)
      || match header r with
         | Malformed => true
         | _ => false
         end
  end.

End Views.

Module MoreSamples.

Import ProcessRunner DownloadTrocrOnnx.




(** A child that dies at once on SIGTERM while a descendant keeps its
    pipes open for ever. *)
Definition orphaning : process :=
  Process None (Some 0%N) None (fun _ => [])
          (fun _ => txt "[VELLO] Successfully decoded image").

(** A file of the models directory that the script does not know. *)
Definition other_path : string := "models/tokenizer.json".

(** A reply with an empty chunk between two others. *)
Definition with_gap : response :=
  Response true (Length 4) [[x01; x02; x03]; []; [x04]] Complete.

End MoreSamples.

(** * Properties *)

(** ** Base64: bounded checks by evaluation *)
Section Base64Facts.
Import Base64.
Local Open Scope N_scope.

Lemma all_below_spec n P :
  all_below n P = true -> forall x, x < N.of_nat n -> P x = true.
Proof.
  unfold all_below, below. intros Hall x Hx.
  rewrite forallb_forall in Hall. apply Hall.
  apply in_map_iff. exists (N.to_nat x). split; [apply N2Nat.id|].
  apply in_seq. lia.
Qed.

Lemma pair_check_all :
  all_below 256 (fun a => all_below 256 (pair_check a)) = true.
Proof. vm_compute. reflexivity. Qed.

Lemma pair_facts (a b : N) :
  a <= 255 -> b <= 255 -> pair_check a b = true.
Proof.
  intros Ha Hb.
  pose proof (all_below_spec 256 _ pair_check_all a ltac:(lia)) as H.
  cbv beta in H. apply (all_below_spec 256 _ H b). lia.
Qed.

Lemma sextet_check_all : all_below 64 sextet_check = true.
Proof. vm_compute. reflexivity. Qed.

Lemma index_char n : n < 64 -> b64_index (b64_char n) = Some n.
Proof.
  intros Hn. pose proof (all_below_spec 64 _ sextet_check_all n ltac:(lia)) as H.
  unfold sextet_check in H. destruct (b64_index (b64_char n)) as [m|]; [|discriminate].
  apply andb_prop in H as [H _]. apply N.eqb_eq in H. now subst.
Qed.

Lemma char_not_pad n : n < 64 -> Ascii.eqb (b64_char n) pad = false.
Proof.
  intros Hn. pose proof (all_below_spec 64 _ sextet_check_all n ltac:(lia)) as H.
  unfold sextet_check in H. destruct (b64_index (b64_char n)) as [m|]; [|discriminate].
  apply andb_prop in H as [_ H]. now apply negb_true_iff in H.
Qed.

Lemma char_is_b64 n : n < 64 -> is_b64_char (b64_char n) = true.
Proof. intros Hn. unfold is_b64_char. now rewrite index_char. Qed.

Lemma pad_is_b64 : is_b64_char pad = true.
Proof. reflexivity. Qed.

Ltac split_check H :=
  unfold pair_check in H;
  repeat (apply andb_prop in H; destruct H as [H ?]);
  repeat match goal with
         | E : (_ =? _) = true |- _ => apply N.eqb_eq in E
         | E : (_ <? _) = true |- _ => apply N.ltb_lt in E
         end.

Lemma sextets_small (a b : N) :
  a <= 255 -> b <= 255 ->
  sextet0 a < 64 /\ sextet1 a b < 64 /\ sextet2 a b < 64 /\ sextet3 a < 64.
Proof.
  intros Ha Hb. pose proof (pair_facts a b Ha Hb) as H. split_check H. auto.
Qed.

Lemma octet0_sextets (a b : N) :
  a <= 255 -> b <= 255 -> octet0 (sextet0 a) (sextet1 a b) = a.
Proof.
  intros Ha Hb. pose proof (pair_facts a b Ha Hb) as H. split_check H. auto.
Qed.

Lemma octet1_sextets (a b c : N) :
  a <= 255 -> b <= 255 -> c <= 255 ->
  octet1 (sextet1 a b) (sextet2 b c) = b.
Proof.
  intros Ha Hb Hc. unfold octet1.
  pose proof (pair_facts a b Ha Hb) as Pab. split_check Pab.
  pose proof (pair_facts b c Hb Hc) as Pbc. split_check Pbc.
  congruence.
Qed.

Lemma octet2_sextets (b c : N) :
  b <= 255 -> c <= 255 -> octet2 (sextet2 b c) (sextet3 c) = c.
Proof.
  intros Hb Hc. unfold octet2.
  pose proof (pair_facts b c Hb Hc) as Pbc. split_check Pbc.
  pose proof (pair_facts c 0 Hc ltac:(lia)) as Pc. split_check Pc.
  congruence.
Qed.

End Base64Facts.

(** ** Base64: length, alphabet and round trip *)
Section Base64Encode.
Import Base64.

(** Induction following the encoder: groups of three. *)
Lemma triples_ind (A : Type) (P : list A -> Prop) :
  P [] ->
  (forall a, P [a]) ->
  (forall a b, P [a; b]) ->
  (forall a b c l, P l -> P (a :: b :: c :: l)) ->
  forall l, P l.
Proof.
  intros H0 H1 H2 H3 l.
  assert (P l /\ (forall a, P (a :: l)) /\ (forall a b, P (a :: b :: l)))
    as [Hl _]; [|exact Hl].
  induction l as [|x l (IH0 & IH1 & IH2)]; auto.
Qed.

Lemma byte_small (b : byte) : (Byte.to_N b <= 255)%N.
Proof. apply Byte.to_N_bounded. Qed.

Lemma b64encode_length (bs : list byte) :
  length (b64encode bs) = 4 * ((length bs + 2) / 3).
Proof.
  induction bs as [| a | a b | a b c l IH] using triples_ind;
    try reflexivity.
  cbn [b64encode length]. rewrite IH.
  replace (S (S (S (length l))) + 2) with (length l + 2 + 1 * 3) by lia.
  rewrite Nat.div_add by lia. lia.
Qed.

Lemma b64encode_alphabet (bs : list byte) :
  forallb is_b64_char (b64encode bs) = true.
Proof.
  induction bs as [| a | a b | a b c l IH] using triples_ind;
    cbn [b64encode forallb]; try reflexivity.
  - destruct (sextets_small (Byte.to_N a) 0 (byte_small a) ltac:(lia))
      as (S0 & S1 & _).
    rewrite !char_is_b64 by assumption. reflexivity.
  - destruct (sextets_small (Byte.to_N a) (Byte.to_N b) (byte_small a)
                (byte_small b)) as (S0 & S1 & _).
    destruct (sextets_small (Byte.to_N b) 0 (byte_small b) ltac:(lia))
      as (_ & _ & S2 & _).
    rewrite !char_is_b64 by assumption. reflexivity.
  - destruct (sextets_small (Byte.to_N a) (Byte.to_N b) (byte_small a)
                (byte_small b)) as (S0 & S1 & _).
    destruct (sextets_small (Byte.to_N b) (Byte.to_N c) (byte_small b)
                (byte_small c)) as (_ & _ & S2 & _).
    destruct (sextets_small (Byte.to_N c) 0 (byte_small c) ltac:(lia))
      as (_ & _ & _ & S3).
    rewrite !char_is_b64 by assumption. exact IH.
Qed.

(** A file whose length is 1 modulo 3 is encoded with two padding
    characters at the end. *)
Lemma b64encode_padding (bs : list byte) :
  length bs mod 3 = 1 ->
  exists body, b64encode bs = body ++ [pad; pad].
Proof.
  induction bs as [| a | a b | a b c l IH] using triples_ind; intros Hm.
  - discriminate.
  - eexists [_; _]. reflexivity.
  - discriminate.
  - destruct IH as [body Hb].
    + cbn [length] in Hm.
      replace (S (S (S (length l)))) with (length l + 1 * 3) in Hm by lia.
      now rewrite Nat.Div0.mod_add in Hm.
    + cbn [b64encode]. rewrite Hb.
      eexists (_ :: _ :: _ :: _ :: body). reflexivity.
Qed.

Lemma bytes_of_1 (a : byte) : bytes_of [Byte.to_N a] = Some [a].
Proof. cbn. now rewrite Byte.of_to_N. Qed.

Lemma bytes_of_2 (a b : byte) :
  bytes_of [Byte.to_N a; Byte.to_N b] = Some [a; b].
Proof. cbn. now rewrite !Byte.of_to_N. Qed.

Lemma bytes_of_3 (a b c : byte) :
  bytes_of [Byte.to_N a; Byte.to_N b; Byte.to_N c] = Some [a; b; c].
Proof. cbn. now rewrite !Byte.of_to_N. Qed.

Lemma b64decode_group (c0 c1 c2 c3 : ascii) (rest : text) :
  b64decode (c0 :: c1 :: c2 :: c3 :: rest) =
  match b64_index c0, b64_index c1 with
  | Some s0, Some s1 =>
      if Ascii.eqb c2 pad then
        if Ascii.eqb c3 pad then
          match rest with
          | [] => bytes_of [octet0 s0 s1]
          | _ :: _ => None
          end
        else None
      else
        match b64_index c2 with
        | None => None
        | Some s2 =>
            if Ascii.eqb c3 pad then
              match rest with
              | [] => bytes_of [octet0 s0 s1; octet1 s1 s2]
              | _ :: _ => None
              end
            else
              match b64_index c3, b64decode rest with
              | Some s3, Some tl =>
                  match bytes_of [octet0 s0 s1; octet1 s1 s2; octet2 s2 s3] with
                  | Some hd => Some (hd ++ tl)
                  | None => None
                  end
              | _, _ => None
              end
        end
  | _, _ => None
  end.
Proof. reflexivity. Qed.

Lemma b64decode_b64encode (bs : list byte) :
  b64decode (b64encode bs) = Some bs.
Proof.
  induction bs as [| a | a b | a b c l IH] using triples_ind.
  - reflexivity.
  - cbn [b64encode]. rewrite b64decode_group.
    destruct (sextets_small (Byte.to_N a) 0 (byte_small a) ltac:(lia))
      as (S0 & S1 & _).
    rewrite !index_char by assumption.
    rewrite Ascii.eqb_refl.
    rewrite octet0_sextets by (apply byte_small || lia).
    apply bytes_of_1.
  - cbn [b64encode]. rewrite b64decode_group.
    destruct (sextets_small (Byte.to_N a) (Byte.to_N b) (byte_small a)
                (byte_small b)) as (S0 & S1 & _).
    destruct (sextets_small (Byte.to_N b) 0 (byte_small b) ltac:(lia))
      as (_ & _ & S2 & _).
    rewrite !index_char by assumption.
    rewrite char_not_pad by assumption.
    rewrite Ascii.eqb_refl.
    rewrite octet0_sextets by apply byte_small.
    rewrite octet1_sextets by (apply byte_small || lia).
    apply bytes_of_2.
  - cbn [b64encode]. rewrite b64decode_group, IH.
    destruct (sextets_small (Byte.to_N a) (Byte.to_N b) (byte_small a)
                (byte_small b)) as (S0 & S1 & _).
    destruct (sextets_small (Byte.to_N b) (Byte.to_N c) (byte_small b)
                (byte_small c)) as (_ & _ & S2 & _).
    destruct (sextets_small (Byte.to_N c) 0 (byte_small c) ltac:(lia))
      as (_ & _ & _ & S3).
    rewrite !index_char by assumption.
    rewrite !char_not_pad by assumption.
    rewrite octet0_sextets by apply byte_small.
    rewrite octet1_sextets by apply byte_small.
    rewrite octet2_sextets by apply byte_small.
    now rewrite bytes_of_3.
Qed.

(** The test vectors of RFC 4648, section 10. *)
Example b64encode_rfc4648 :
  b64encode [] = []
  /\ map b64encode
        [[x66]; [x66; x6f]; [x66; x6f; x6f]; [x66; x6f; x6f; x62];
         [x66; x6f; x6f; x62; x61]; [x66; x6f; x6f; x62; x61; x72]]
     = map txt ["Zg=="; "Zm8="; "Zm9v"; "Zm9vYg=="; "Zm9vYmE="; "Zm9vYmFy"].
Proof. split; vm_compute; reflexivity. Qed.

End Base64Encode.

(** ** Base64: the encoder gives the canonical text *)
Section Base64Canonical.
Import Base64 Base64Canon.

Lemma quads_ind (A : Type) (P : list A -> Prop) :
  P [] ->
  (forall a, P [a]) ->
  (forall a b, P [a; b]) ->
  (forall a b c, P [a; b; c]) ->
  (forall a b c d l, P l -> P (a :: b :: c :: d :: l)) ->
  forall l, P l.
Proof.
  intros H0 H1 H2 H3 H4 l.
  assert (P l /\ (forall a, P (a :: l)) /\ (forall a b, P (a :: b :: l))
          /\ (forall a b c, P (a :: b :: c :: l))) as [Hl _]; [|exact Hl].
  induction l as [|x l (IH0 & IH1 & IH2 & IH3)]; auto 10.
Qed.

Lemma index_from_spec (l : text) :
  forall (i s : N) (c : ascii),
    index_from i c l = Some s ->
    exists k, s = (i + N.of_nat k)%N /\ k < length l /\ nth k l pad = c.
Proof.
  induction l as [|a l IH]; intros i s c H; [discriminate|].
  cbn [index_from] in H. destruct (Ascii.eqb a c) eqn:Hac.
  - injection H as <-. apply Ascii.eqb_eq in Hac as ->.
    exists 0. cbn [length nth]. repeat split; lia.
  - destruct (IH _ _ _ H) as (k & -> & Hk & Hn).
    exists (S k). cbn [length nth]. repeat split; try lia. exact Hn.
Qed.

Lemma b64_index_char (c : ascii) (s : N) :
  b64_index c = Some s -> (s < 64)%N /\ b64_char s = c.
Proof.
  intros H. apply index_from_spec in H as (k & -> & Hk & Hn).
  change (length alphabet) with 64 in Hk.
  split; [lia|]. unfold b64_char.
  now replace (N.to_nat (0 + N.of_nat k)) with k by lia.
Qed.

Lemma sextets_check_all :
  all_below 64 (fun a => all_below 64 (fun b =>
    all_below 64 (sextets_check a b))) = true.
Proof. vm_compute. reflexivity. Qed.

Lemma sextets_facts (a b c : N) :
  (a < 64)%N -> (b < 64)%N -> (c < 64)%N -> sextets_check a b c = true.
Proof.
  intros Ha Hb Hc.
  pose proof (all_below_spec 64 _ sextets_check_all a ltac:(lia)) as H.
  cbv beta in H.
  pose proof (all_below_spec 64 _ H b ltac:(lia)) as H'.
  cbv beta in H'. apply (all_below_spec 64 _ H' c). lia.
Qed.

Ltac split_sextets H :=
  unfold sextets_check in H;
  repeat (apply andb_prop in H; destruct H as [H ?]);
  repeat match goal with
         | E : (_ =? _)%N = true |- _ => apply N.eqb_eq in E
         | E : (_ <=? _)%N = true |- _ => apply N.leb_le in E
         end.

Lemma group_of_sextets (s0 s1 s2 s3 : N) :
  (s0 < 64)%N -> (s1 < 64)%N -> (s2 < 64)%N -> (s3 < 64)%N ->
  sextet0 (octet0 s0 s1) = s0
  /\ sextet1 (octet0 s0 s1) (octet1 s1 s2) = s1
  /\ sextet2 (octet1 s1 s2) (octet2 s2 s3) = s2
  /\ sextet3 (octet2 s2 s3) = s3
  /\ (N.land s1 15 = 0%N -> sextet1 (octet0 s0 s1) 0 = s1)
  /\ (N.land s2 3 = 0%N -> sextet2 (octet1 s1 s2) 0 = s2).
Proof.
  intros H0 H1 H2 H3.
  pose proof (sextets_facts s0 s1 s2 H0 H1 H2) as P012. split_sextets P012.
  pose proof (sextets_facts s1 s2 s3 H1 H2 H3) as P123. split_sextets P123.
  pose proof (sextets_facts s2 s3 s3 H2 H3 H3) as P233. split_sextets P233.
  repeat split; try assumption.
  - intros Hz. apply N.eqb_eq in Hz.
    match goal with
    | E : (if N.land s1 15 =? 0 then _ else _)%N = true |- _ =>
        rewrite Hz in E; now apply N.eqb_eq in E
    end.
  - intros Hz. apply N.eqb_eq in Hz.
    match goal with
    | E : (if N.land s2 3 =? 0 then _ else _)%N = true |- _ =>
        rewrite Hz in E; now apply N.eqb_eq in E
    end.
Qed.

Lemma bytes_of_inv (ns : list N) (bs : list byte) :
  bytes_of ns = Some bs -> map Byte.to_N bs = ns.
Proof.
  revert bs. induction ns as [|n ns IH]; intros bs H.
  - cbn in H. now injection H as <-.
  - cbn [bytes_of foldr] in H. fold (bytes_of ns) in H.
    destruct (Byte.of_N n) as [b|] eqn:Hb; [|discriminate].
    destruct (bytes_of ns) as [bs'|]; [|discriminate].
    injection H as <-. cbn [map]. rewrite (IH bs' eq_refl).
    now rewrite (Byte.to_of_N _ Hb).
Qed.

Ltac split_pair H :=
  unfold pair_check in H;
  repeat (apply andb_prop in H; destruct H as [H ?]);
  repeat match goal with
         | E : (_ =? _)%N = true |- _ => apply N.eqb_eq in E
         | E : (_ <? _)%N = true |- _ => apply N.ltb_lt in E
         end.

Lemma char_in_alphabet (n : N) : (n < 64)%N -> in_alphabet (b64_char n) = true.
Proof. intros Hn. unfold in_alphabet. now rewrite index_char. Qed.

Lemma char_low_bits (k n : N) :
  (n < 64)%N -> N.land n k = 0%N -> low_bits_zero k (b64_char n) = true.
Proof.
  intros Hn Hz. unfold low_bits_zero. rewrite index_char by assumption.
  now apply N.eqb_eq.
Qed.

Lemma last_sextet_one_byte (a : N) :
  (a <= 255)%N -> (sextet1 a 0 < 64)%N /\ N.land (sextet1 a 0) 15 = 0%N.
Proof.
  intros Ha. pose proof (pair_facts a 0 Ha ltac:(lia)) as P. split_pair P.
  split; [assumption|].
  match goal with
  | E : N.land (sextet1 a 0) 15 = _ |- _ => rewrite E; reflexivity
  end.
Qed.

Lemma last_sextet_two_bytes (b : N) :
  (b <= 255)%N -> (sextet2 b 0 < 64)%N /\ N.land (sextet2 b 0) 3 = 0%N.
Proof.
  intros Hb. pose proof (pair_facts b 0 Hb ltac:(lia)) as P. split_pair P.
  split; [assumption|].
  match goal with
  | E : N.land (sextet2 b 0) 3 = _ |- _ => rewrite E; reflexivity
  end.
Qed.

(** The encoder always produces a canonical text. *)
Lemma canonical_b64encode (bs : list byte) : canonical (b64encode bs) = true.
Proof.
  induction bs as [| a | a b | a b c l IH] using triples_ind.
  - reflexivity.
  - cbn [b64encode canonical is_empty].
    destruct (sextets_small (Byte.to_N a) 0 (byte_small a) ltac:(lia))
      as (S0 & S1 & _).
    destruct (last_sextet_one_byte _ (byte_small a)) as [_ Hz].
    rewrite !Ascii.eqb_refl, char_in_alphabet, char_low_bits by assumption.
    reflexivity.
  - cbn [b64encode canonical is_empty].
    destruct (sextets_small (Byte.to_N a) (Byte.to_N b) (byte_small a)
                (byte_small b)) as (S0 & S1 & _).
    destruct (last_sextet_two_bytes _ (byte_small b)) as [S2 Hz].
    rewrite char_not_pad, Ascii.eqb_refl by assumption.
    rewrite !char_in_alphabet, char_low_bits by assumption.
    reflexivity.
  - cbn [b64encode canonical].
    destruct (sextets_small (Byte.to_N a) (Byte.to_N b) (byte_small a)
                (byte_small b)) as (S0 & S1 & _).
    destruct (sextets_small (Byte.to_N b) (Byte.to_N c) (byte_small b)
                (byte_small c)) as (_ & _ & S2 & _).
    destruct (sextets_small (Byte.to_N c) 0 (byte_small c) ltac:(lia))
      as (_ & _ & _ & S3).
    rewrite !char_not_pad by assumption.
    rewrite !char_in_alphabet by assumption. exact IH.
Qed.

Lemma in_alphabet_index (c : ascii) :
  in_alphabet c = true ->
  exists s, b64_index c = Some s /\ (s < 64)%N /\ b64_char s = c.
Proof.
  unfold in_alphabet. destruct (b64_index c) as [s|] eqn:H; [|discriminate].
  intros _. exists s. split; [reflexivity|]. now apply b64_index_char.
Qed.

Lemma low_bits_zero_index (k : N) (c : ascii) :
  low_bits_zero k c = true ->
  exists s, b64_index c = Some s /\ (s < 64)%N /\ b64_char s = c
            /\ N.land s k = 0%N.
Proof.
  unfold low_bits_zero. destruct (b64_index c) as [s|] eqn:H; [|discriminate].
  intros Hz. apply N.eqb_eq in Hz. exists s.
  destruct (b64_index_char c s H). auto.
Qed.

Lemma is_empty_nil (p : text) : is_empty p = true -> p = [].
Proof. now destruct p. Qed.

(** A canonical text is the encoding of what it decodes to: no other
    canonical text decodes to the same bytes. *)
Lemma canonical_decode_unique (p : text) :
  forall bs : list byte,
    canonical p = true -> b64decode p = Some bs -> p = b64encode bs.
Proof.
  induction p as [| a | a b | a b c | c0 c1 c2 c3 rest IH] using quads_ind;
    intros bs Hc Hd; try discriminate.
  - cbn in Hd. now injection Hd as <-.
  - rewrite b64decode_group in Hd. cbn [canonical] in Hc.
    destruct (Ascii.eqb c2 pad) eqn:E2.
    + (* one byte in the last group *)
      repeat (apply andb_prop in Hc; destruct Hc as [Hc ?]).
      apply Ascii.eqb_eq in E2 as ->. apply Ascii.eqb_eq in Hc as ->.
      match goal with H : is_empty rest = true |- _ =>
        apply is_empty_nil in H; subst rest end.
      match goal with H : in_alphabet c0 = true |- _ =>
        apply in_alphabet_index in H as (s0 & I0 & L0 & <-) end.
      match goal with H : low_bits_zero 15 c1 = true |- _ =>
        apply low_bits_zero_index in H as (s1 & I1 & L1 & <- & Z1) end.
      rewrite I0, I1, Ascii.eqb_refl in Hd.
      apply bytes_of_inv in Hd.
      destruct bs as [|b0 [|? ?]]; try discriminate.
      injection Hd as Hb0.
      destruct (group_of_sextets s0 s1 s1 s1 L0 L1 L1 L1)
        as (G0 & _ & _ & _ & G1 & _).
      cbn [b64encode]. rewrite Hb0, G0, (G1 Z1). reflexivity.
    + destruct (Ascii.eqb c3 pad) eqn:E3.
      * (* two bytes in the last group *)
        repeat (apply andb_prop in Hc; destruct Hc as [Hc ?]).
        apply Ascii.eqb_eq in E3 as ->.
        match goal with H : is_empty rest = true |- _ =>
          apply is_empty_nil in H; subst rest end.
        apply in_alphabet_index in Hc as (s0 & I0 & L0 & <-).
        match goal with H : in_alphabet c1 = true |- _ =>
          apply in_alphabet_index in H as (s1 & I1 & L1 & <-) end.
        match goal with H : low_bits_zero 3 c2 = true |- _ =>
          apply low_bits_zero_index in H as (s2 & I2 & L2 & <- & Z2) end.
        rewrite I0, I1, I2 in Hd.
        apply bytes_of_inv in Hd.
        destruct bs as [|b0 [|b1 [|? ?]]]; try discriminate.
        injection Hd as Hb0 Hb1.
        destruct (group_of_sextets s0 s1 s2 s2 L0 L1 L2 L2)
          as (G0 & G1 & _ & _ & _ & G2).
        cbn [b64encode]. rewrite Hb0, Hb1, G0, G1, (G2 Z2). reflexivity.
      * (* a full group *)
        repeat (apply andb_prop in Hc; destruct Hc as [Hc ?]).
        apply in_alphabet_index in Hc as (s0 & I0 & L0 & <-).
        match goal with H : in_alphabet c1 = true |- _ =>
          apply in_alphabet_index in H as (s1 & I1 & L1 & <-) end.
        match goal with H : in_alphabet c2 = true |- _ =>
          apply in_alphabet_index in H as (s2 & I2 & L2 & <-) end.
        match goal with H : in_alphabet c3 = true |- _ =>
          apply in_alphabet_index in H as (s3 & I3 & L3 & <-) end.
        rewrite I0, I1, I2, I3 in Hd.
        destruct (b64decode rest) as [tl|] eqn:Hrest; [|discriminate].
        destruct (bytes_of [octet0 s0 s1; octet1 s1 s2; octet2 s2 s3])
          as [hd|] eqn:Hhd; [|discriminate].
        injection Hd as <-. apply bytes_of_inv in Hhd.
        destruct hd as [|b0 [|b1 [|b2 [|? ?]]]]; try discriminate.
        injection Hhd as Hb0 Hb1 Hb2.
        destruct (group_of_sextets s0 s1 s2 s3 L0 L1 L2 L3)
          as (G0 & G1 & G2 & G3 & _ & _).
        cbn [app b64encode]. rewrite Hb0, Hb1, Hb2, G0, G1, G2, G3.
        f_equal. f_equal. f_equal. f_equal.
        apply IH; [assumption | reflexivity].
Qed.

(** A file whose length is 1 modulo 3: alphabet characters only, then
    exactly two padding characters. *)
Lemma b64encode_padding_body (bs : list byte) :
  length bs mod 3 = 1 ->
  exists body,
    b64encode bs = body ++ [pad; pad]
    /\ forallb in_alphabet body = true.
Proof.
  induction bs as [| a | a b | a b c l IH] using triples_ind; intros Hm.
  - discriminate.
  - destruct (sextets_small (Byte.to_N a) 0 (byte_small a) ltac:(lia))
      as (S0 & S1 & _).
    exists [b64_char (sextet0 (Byte.to_N a));
            b64_char (sextet1 (Byte.to_N a) 0)].
    split; [reflexivity|]. cbn [forallb].
    now rewrite !char_in_alphabet by assumption.
  - discriminate.
  - destruct IH as (body & Hb & Ha).
    + cbn [length] in Hm.
      replace (S (S (S (length l)))) with (length l + 1 * 3) in Hm by lia.
      now rewrite Nat.Div0.mod_add in Hm.
    + destruct (sextets_small (Byte.to_N a) (Byte.to_N b) (byte_small a)
                  (byte_small b)) as (S0 & S1 & _).
      destruct (sextets_small (Byte.to_N b) (Byte.to_N c) (byte_small b)
                  (byte_small c)) as (_ & _ & S2 & _).
      destruct (sextets_small (Byte.to_N c) 0 (byte_small c) ltac:(lia))
        as (_ & _ & _ & S3).
      cbn [b64encode]. rewrite Hb.
      eexists (_ :: _ :: _ :: _ :: body). split; [reflexivity|].
      cbn [forallb]. now rewrite !char_in_alphabet, Ha by assumption.
Qed.

End Base64Canonical.

(** ** kitty_test_simple.py *)
Section Kitty.
Import Base64 KittyTestSimple Samples.

Lemma strip_prefix_app (p s : text) : strip_prefix p (p ++ s) = Some s.
Proof.
  induction p as [|a p IH]; cbn [strip_prefix app]; [reflexivity|].
  now rewrite Ascii.eqb_refl.
Qed.

Lemma strip_suffix_app (p s : text) : strip_suffix p (s ++ p) = Some s.
Proof.
  unfold strip_suffix. rewrite rev_app_distr, strip_prefix_app.
  cbn [option_map]. now rewrite rev_involutive.
Qed.

Lemma frame_shape (img : list byte) :
  frame img =
  [ESC; "_"%char] ++ txt "G" ++ txt "a=T,f=100;" ++ b64encode img
    ++ [ESC; "\"%char].
Proof. reflexivity. Qed.

Lemma script_emits (effect : gmap string file -> gmap string file)
  (fs : gmap string file) (f : file) :
  effect fs !! image_path = Some f ->
  readable f = true ->
  exists rest, script (Runs effect) fs = (Stops (Ok tt), frame (data f) :: rest).
Proof.
  intros Hf Hr. unfold script, read_file. rewrite Hf, Hr. eauto.
Qed.

(** C6: when the image file holds 10 bytes, the first text that the script
    writes to standard output is the two-byte escape prefix (ESC, "_"), the
    letter G, the literal "a=T,f=100;", then exactly ceil(10/3)*4 = 16
    characters of padded standard base64, then the two-byte terminator
    (ESC, backslash). The 16 characters are 14 characters of the 64
    character alphabet followed by "=="; they form a canonical text that
    decodes to the bytes of the file, and they are the only canonical
    text that does. *)
Theorem kitty_frame_of_ten_bytes
  (effect : gmap string file -> gmap string file) (fs : gmap string file)
  (f : file) :
  effect fs !! image_path = Some f ->
  readable f = true ->
  length (data f) = 10 ->
  exists payload rest,
    script (Runs effect) fs =
      (Stops (Ok tt),
       ([ESC; "_"%char] ++ txt "G" ++ txt "a=T,f=100;" ++ payload
          ++ [ESC; "\"%char]) :: rest)
    /\ payload = b64encode (data f)
    /\ length payload = 4 * ((10 + 2) / 3)
    /\ length payload = 16
    /\ forallb is_b64_char payload = true
    /\ (exists body, payload = body ++ [pad; pad]
                     /\ length body = 14
                     /\ forallb Base64Canon.in_alphabet body = true)
    /\ Base64Canon.canonical payload = true
    /\ b64decode payload = Some (data f)
    /\ forall p, Base64Canon.canonical p = true ->
                 b64decode p = Some (data f) -> p = payload.
Proof.
  intros Hf Hr Hlen.
  destruct (script_emits effect fs f Hf Hr) as [rest Hs].
  exists (b64encode (data f)), rest.
  rewrite Hs, frame_shape.
  pose proof (b64encode_length (data f)) as HL. rewrite Hlen in HL.
  split; [reflexivity|]. split; [reflexivity|].
  split; [exact HL|]. split; [exact HL|].
  split; [apply b64encode_alphabet|].
  split.
  - destruct (b64encode_padding_body (data f)) as (body & Hb & Ha);
      [now rewrite Hlen|].
    exists body. split; [exact Hb|]. split; [|exact Ha].
    rewrite Hb, length_app in HL. cbn [length] in HL. cbn in HL. lia.
  - split; [apply canonical_b64encode|].
    split; [apply b64decode_b64encode|].
    intros p Hc Hd. now apply canonical_decode_unique.
Qed.

Lemma kitty_frame_of_ten_bytes_witness :
  exists payload rest,
    script (Runs renders_ten_bytes) ∅ =
      (Stops (Ok tt),
       ([ESC; "_"%char] ++ txt "G" ++ txt "a=T,f=100;" ++ payload
          ++ [ESC; "\"%char]) :: rest)
    /\ payload = txt "iVBORw0KGgoAAA=="
    /\ payload = b64encode ten_bytes
    /\ length payload = 16
    /\ Base64Canon.canonical payload = true
    /\ b64decode payload = Some ten_bytes.
Proof.
  destruct (kitty_frame_of_ten_bytes renders_ten_bytes ∅
              (File true true ten_bytes))
    as (payload & rest & Hs & Hp & _ & Hl & _ & _ & Hc & Hd & _).
  - vm_compute. reflexivity.
  - reflexivity.
  - reflexivity.
  - exists payload, rest. split; [exact Hs|].
    split; [rewrite Hp; vm_compute; reflexivity|].
    repeat split; assumption.
Defined.

(** C7: when the image file is missing or unreadable once the renderer has
    run, the script stops with an exception and has written nothing to
    standard output. *)
Theorem kitty_no_image_no_output
  (effect : gmap string file -> gmap string file) (fs : gmap string file) :
  (effect fs !! image_path = None
   \/ exists f, effect fs !! image_path = Some f /\ readable f = false) ->
  exists e, script (Runs effect) fs = (Stops (Raise e), [])
            /\ (e = FileNotFoundError \/ e = PermissionError).
Proof.
  intros [Hn | (f & Hf & Hr)]; unfold script, read_file.
  - rewrite Hn. eauto.
  - rewrite Hf, Hr. eauto.
Qed.

Lemma kitty_no_image_no_output_witness :
  exists e, script (Runs (fun fs => fs)) ∅ = (Stops (Raise e), [])
            /\ (e = FileNotFoundError \/ e = PermissionError).
Proof.
  apply (kitty_no_image_no_output (fun fs => fs) ∅).
  left. vm_compute. reflexivity.
Defined.


End Kitty.

(** ** Marker scanning *)
Section Inspector.
Import OutputInspector.

Lemma starts_with_spec (p s : text) :
  starts_with p s = true <-> exists post, s = p ++ post.
Proof.
  revert s. induction p as [|a p IH]; intros s; cbn [starts_with].
  - split; eauto.
  - destruct s as [|b s].
    + split; [discriminate | intros [post H]; discriminate].
    + rewrite andb_true_iff, Ascii.eqb_eq, IH. split.
      * intros [-> [post ->]]. now exists post.
      * intros [post H]. injection H as -> ->. eauto.
Qed.

(** [p in s] holds exactly when [p] occurs in [s], character for
    character. *)
Lemma contains_spec (p s : text) :
  contains p s = true <-> exists pre post, s = pre ++ p ++ post.
Proof.
  induction s as [|c s IH]; cbn [contains]; rewrite orb_true_iff.
  - split.
    + intros [H | H]; [|discriminate].
      apply starts_with_spec in H as [post H]. now exists [], post.
    + intros (pre & post & H). left. apply starts_with_spec.
      destruct pre; [now exists post|discriminate].
  - rewrite IH, starts_with_spec. split.
    + intros [[post H] | (pre & post & H)].
      * now exists [], post.
      * exists (c :: pre), post. now rewrite H.
    + intros (pre & post & H). destruct pre as [|c' pre].
      * left. now exists post.
      * right. injection H as _ H. eauto.
Qed.

Lemma contains_prefix_pattern (p q s : text) :
  contains (p ++ q) s = true -> contains p s = true.
Proof.
  rewrite !contains_spec. intros (pre & post & ->).
  exists pre, (q ++ post). now rewrite <- app_assoc.
Qed.

Lemma split_lines_nonempty (s : text) : split_lines s <> [].
Proof.
  destruct s as [|c s]; cbn [split_lines]; [discriminate|].
  destruct (Ascii.eqb c NL); [discriminate|].
  destruct (split_lines s); discriminate.
Qed.

Lemma starts_with_first_line (p s l : text) (ls : list text) :
  ~ In NL p -> split_lines s = l :: ls ->
  starts_with p s = starts_with p l.
Proof.
  revert p l ls. induction s as [|c s IH]; intros p l ls Hp Hs.
  - injection Hs as <- <-. reflexivity.
  - cbn [split_lines] in Hs. destruct p as [|a p]; [reflexivity|].
    destruct (Ascii.eqb c NL) eqn:Hc.
    + injection Hs as <- <-. apply Ascii.eqb_eq in Hc as ->.
      cbn [starts_with]. destruct (Ascii.eqb a NL) eqn:Ha; [|reflexivity].
      apply Ascii.eqb_eq in Ha. exfalso. apply Hp. now left.
    + destruct (split_lines s) as [|l' ls'] eqn:Hs'.
      { now apply split_lines_nonempty in Hs'. }
      injection Hs as <- <-. cbn [starts_with]. f_equal.
      apply (IH p l' ls'); [|reflexivity].
      intros Hin. apply Hp. now right.
Qed.

(** A pattern without a newline occurs in the text exactly when it occurs
    within one of its lines. *)
Lemma contains_linewise (p s : text) :
  ~ In NL p -> contains p s = spec_matches p s.
Proof.
  intros Hp. unfold spec_matches.
  induction s as [|c s IH].
  - cbn [split_lines existsb contains]. now rewrite !orb_false_r.
  - pose proof (starts_with_first_line p (c :: s)) as Hfirst.
    cbn [split_lines] in *.
    destruct (Ascii.eqb c NL) eqn:Hc.
    + cbn [existsb contains]. rewrite <- IH.
      rewrite (Hfirst [] (split_lines s) Hp eq_refl).
      now rewrite orb_false_r.
    + destruct (split_lines s) as [|l ls] eqn:Hs.
      { now apply split_lines_nonempty in Hs. }
      cbn [existsb contains] in *.
      rewrite (Hfirst (c :: l) ls Hp eq_refl), IH.
      now rewrite orb_assoc.
Qed.

Lemma one_line_spec (p : text) : one_line p = true -> ~ In NL p.
Proof.
  unfold one_line. rewrite forallb_forall. intros H Hin.
  specialize (H NL Hin). now rewrite Ascii.eqb_refl in H.
Qed.

Example split_lines_trailing_newline :
  split_lines (txt "a" ++ [NL] ++ txt "b" ++ [NL]) = [txt "a"; txt "b"; []]
  /\ split_lines [] = [[]].
Proof. split; reflexivity. Qed.

Example contains_is_case_sensitive :
  contains (txt "LayoutAnalysis") (txt "method: LayoutAnalysis") = true
  /\ contains (txt "LayoutAnalysis") (txt "method: layoutanalysis") = false.
Proof. split; vm_compute; reflexivity. Qed.

Lemma script_patterns_one_line (p : text) :
  In p script_patterns -> ~ In NL p.
Proof.
  intros Hin. apply one_line_spec.
  assert (forallb one_line script_patterns = true) as Hall
    by (vm_compute; reflexivity).
  rewrite forallb_forall in Hall. now apply Hall.
Qed.

Lemma line_rules_one_line (p : text) : In p line_rules -> ~ In NL p.
Proof.
  intros Hin. apply one_line_spec.
  assert (forallb one_line line_rules = true) as Hall
    by (vm_compute; reflexivity).
  rewrite forallb_forall in Hall. now apply Hall.
Qed.

Lemma spec_matches_iff (p s : text) :
  spec_matches p s = true <->
  exists line, In line (split_lines s) /\ contains p line = true.
Proof. unfold spec_matches. apply existsb_exists. Qed.

Lemma echoed_of_echoes (p : text) (ls : list text) :
  flat_map (fun r => match r with
                     | Echo l => if contains p l then [l] else []
                     | TablesDetected => []
                     end) (map Echo ls)
  = List.filter (contains p) ls.
Proof.
  induction ls as [|l ls IH]; [reflexivity|].
  cbn [map flat_map List.filter]. rewrite IH.
  now destruct (contains p l).
Qed.

Lemma filter_within (f g : text -> bool) (ls : list text) :
  (forall l, f l = true -> g l = true) ->
  List.filter f (List.filter g ls) = List.filter f ls.
Proof.
  intros Hfg. induction ls as [|l ls IH]; [reflexivity|].
  cbn [List.filter]. destruct (g l) eqn:Hg.
  - cbn [List.filter]. now rewrite IH.
  - rewrite IH. destruct (f l) eqn:Hf; [|reflexivity].
    apply Hfg in Hf. congruence.
Qed.

Lemma line_rules_detail (p line : text) :
  In p line_rules -> contains p line = true -> detail_line line = true.
Proof.
  unfold line_rules, detail_line. cbn [In].
  intros [<- | [<- | [<- | [<- | []]]]] H.
  - now rewrite H.
  - rewrite H. now rewrite orb_true_r.
  - rewrite H. now rewrite orb_true_r.
  - change (txt "has_tables=") with (txt "has_tables" ++ txt "=") in H.
    apply contains_prefix_pattern in H. now rewrite H.
Qed.

(** C5, as the code has it: every marker test is an exact (case-sensitive)
    substring test that holds exactly when the pattern occurs within one
    line of the text; the per-line rules of test_table_pdf.py depend on
    the gate "LayoutAnalysis or has_tables=true": when it holds every line
    containing the rule is echoed, otherwise at most the first line
    containing "has_tables=" is. *)
Theorem marker_rules_gated (stderr p : text) :
  In p line_rules ->
  tables_gate stderr =
    spec_matches (txt "LayoutAnalysis") stderr
    || spec_matches (txt "has_tables=true") stderr
  /\ decoded stderr =
       spec_matches (txt "[VELLO] Successfully decoded image") stderr
  /\ rendered stderr = spec_matches (txt "Successfully rendered page!") stderr
  /\ (forall line, contains p line = true <->
                   exists pre post, line = pre ++ p ++ post)
  /\ (contains p stderr = true <->
      exists line, In line (split_lines stderr) /\ contains p line = true)
  /\ echoed_for p stderr =
       if tables_gate stderr
       then spec_matching_lines p stderr
       else List.filter (contains p)
              (option_list (List.find flag_line (split_lines stderr))).
Proof.
  intros Hp.
  assert (forall q, In q script_patterns ->
                    contains q stderr = spec_matches q stderr) as Hline.
  { intros q Hq. apply contains_linewise. now apply script_patterns_one_line. }
  repeat split.
  - unfold tables_gate. rewrite !Hline; [reflexivity| |];
      unfold script_patterns; cbn [In]; tauto.
  - apply Hline. unfold script_patterns; cbn [In]; tauto.
  - apply Hline. unfold script_patterns; cbn [In]; tauto.
  - apply contains_spec.
  - apply contains_spec.
  - rewrite contains_linewise by now apply line_rules_one_line.
    apply spec_matches_iff.
  - rewrite <- spec_matches_iff.
    now rewrite contains_linewise by now apply line_rules_one_line.
  - unfold echoed_for, scan. destruct (tables_gate stderr).
    + cbn [flat_map app]. rewrite echoed_of_echoes.
      apply filter_within. intros l. now apply line_rules_detail.
    + destruct (List.find flag_line (split_lines stderr)) as [l|];
        cbn [flat_map option_list List.filter];
        [now rewrite app_nil_r | reflexivity].
Qed.

Lemma marker_rules_gated_witness :
  tables_gate (txt "LayoutLM") =
    spec_matches (txt "LayoutAnalysis") (txt "LayoutLM")
    || spec_matches (txt "has_tables=true") (txt "LayoutLM")
  /\ decoded (txt "LayoutLM") =
       spec_matches (txt "[VELLO] Successfully decoded image") (txt "LayoutLM")
  /\ rendered (txt "LayoutLM") =
       spec_matches (txt "Successfully rendered page!") (txt "LayoutLM")
  /\ (forall line, contains (txt "LayoutLM") line = true <->
                   exists pre post, line = pre ++ txt "LayoutLM" ++ post)
  /\ (contains (txt "LayoutLM") (txt "LayoutLM") = true <->
      exists line, In line (split_lines (txt "LayoutLM"))
                   /\ contains (txt "LayoutLM") line = true)
  /\ echoed_for (txt "LayoutLM") (txt "LayoutLM") =
       if tables_gate (txt "LayoutLM")
       then spec_matching_lines (txt "LayoutLM") (txt "LayoutLM")
       else List.filter (contains (txt "LayoutLM"))
              (option_list (List.find flag_line (split_lines (txt "LayoutLM")))).
Proof.
  apply (marker_rules_gated (txt "LayoutLM") (txt "LayoutLM")).
  unfold line_rules. cbn [In]. tauto.
Defined.

(** C5 as stated fails: the pattern "LayoutLM" occurs in the only line of
    this text, yet the scan reports nothing, because no other rule opened
    the gate; with a second line that opens it, the same line is echoed. *)
Lemma marker_rules_not_independent :
  In (txt "LayoutLM") line_rules
  /\ spec_matches (txt "LayoutLM") (txt "LayoutLM") = true
  /\ scan (txt "LayoutLM") = []
  /\ echoed_for (txt "LayoutLM") (txt "LayoutLM") = []
  /\ echoed_for (txt "LayoutLM")
       (txt "LayoutLM" ++ [NL] ++ txt "LayoutAnalysis") = [txt "LayoutLM"].
Proof.
  repeat split; try (vm_compute; reflexivity).
  unfold line_rules. cbn [In]. tauto.
Qed.

End Inspector.

(** ** Child processes and timeouts *)
Section Processes.
Import ProcessRunner Samples.
Local Open Scope N_scope.







(** A child that dies at once on SIGTERM while a descendant holds its
    pipes: the wait times out although the child is gone, and nothing is
    returned. *)
Example gone_but_pipes_held :
  popen_terminate_communicate (Starts MoreSamples.orphaning)
  = Observation (Raise TimeoutExpired) false 3000.
Proof. reflexivity. Qed.

End Processes.

(** ** download_trocr_onnx.py: one download *)
Section Download.
Import DownloadTrocrOnnx Samples.

Lemma world_eta (w : world) : World (fs w) (log w) = w.
Proof. now destruct w. Qed.

Lemma alter_present (g : file -> file) (m : gmap string file) (k : string)
  (f : file) :
  m !! k = Some f -> alter g k m = <[k := g f]> m.
Proof.
  intros Hk. apply map_eq. intros j.
  rewrite lookup_alter, lookup_insert.
  destruct (decide (k = j)); [now rewrite Hk | reflexivity].
Qed.

Lemma append_data_app (a b : list byte) (f : file) :
  append_data b (append_data a f) = append_data (a ++ b) f.
Proof. unfold append_data. cbn. now rewrite app_assoc. Qed.

Lemma progress_reports_app (l1 l2 : list event) :
  progress_reports (l1 ++ l2) = progress_reports l1 ++ progress_reports l2.
Proof. apply flat_map_app. Qed.

Lemma gets_app (l1 l2 : list event) : gets (l1 ++ l2) = gets l1 ++ gets l2.
Proof. apply flat_map_app. Qed.

(** The loop of lines 20-26 on a file that is open at [path]. *)
Lemma receive_run (path : string) (T : Z) (cs : list (list byte))
  (e : body_end) :
  forall (d : Z) (w : world) (f : file),
    fs w !! path = Some f ->
    exists evs,
      snd (receive path T cs e d w) =
        World (<[path := append_data (concat cs) f]> (fs w)) (log w ++ evs)
      /\ forallb (transfer_event path) evs = true
      /\ progress_reports evs =
           (if (T >? 0)%Z
            then map (fun x => (x, T)) (running_totals d cs)
            else [])
      /\ fst (receive path T cs e d w) =
           match e with
           | Complete => Ok (d + Z.of_nat (length (concat cs)))%Z
           | Broken => Raise ChunkedEncodingError
           end.
Proof.
  induction cs as [|c cs IH]; intros d w f Hf.
  - exists []. cbn [receive concat running_totals map].
    assert (append_data [] f = f) as ->
        by (unfold append_data; destruct f; cbn; now rewrite app_nil_r).
    rewrite insert_id by assumption. rewrite app_nil_r, world_eta.
    repeat split.
    + now destruct e.
    + now destruct (T >? 0)%Z.
    + destruct e; cbn; [f_equal; lia | reflexivity].
  - destruct c as [|b c].
    + destruct (IH d w f Hf) as (evs & H1 & H2 & H3 & H4).
      exists evs. cbn [receive concat running_totals app]. auto.
    + set (chunk := b :: c) in *.
      set (d' := (d + Z.of_nat (length chunk))%Z).
      set (w1 := World (<[path := append_data chunk f]> (fs w))
                       (log w ++ [Write path chunk])).
      set (w2 := World (fs w1)
                       (log w1 ++ if (T >? 0)%Z
                                  then [Print (Progress d' T)] else [])).
      assert (receive path T (chunk :: cs) e d w = receive path T cs e d' w2)
        as Hstep.
      { subst chunk. cbn [receive]. unfold bind, write.
        rewrite (alter_present _ _ _ _ Hf). fold w1.
        unfold w2. destruct (T >? 0)%Z.
        - reflexivity.
        - unfold ret. now rewrite app_nil_r, world_eta. }
      destruct (IH d' w2 (append_data chunk f)) as (evs & H1 & H2 & H3 & H4).
      { apply lookup_insert_eq. }
      exists ([Write path chunk] ++
              (if (T >? 0)%Z then [Print (Progress d' T)] else []) ++ evs).
      rewrite Hstep, H1, H4. cbn [fs log w1 w2].
      rewrite insert_insert_eq, append_data_app. cbn [concat].
      repeat split.
      * now rewrite <- !app_assoc.
      * cbn [app forallb transfer_event]. rewrite String.eqb_refl.
        destruct (T >? 0)%Z; cbn [app forallb transfer_event]; assumption.
      * rewrite !progress_reports_app, H3.
        subst chunk. cbn [running_totals]. fold d'.
        destruct (T >? 0)%Z; reflexivity.
      * destruct e; [|reflexivity]. f_equal. rewrite length_app.
        subst d'. lia.
Qed.

Lemma download_file_run (net : network) (url dest : string) (w : world) :
  download_run net url dest w
    (fst (download_file net url dest w)) (snd (download_file net url dest w)).
Proof.
  unfold download_file, requests_get, bind, emit.
  destruct (net url) as [|r] eqn:Hnet; cbn [raise ret fst snd].
  { now constructor. }
  unfold raise_for_status.
  destruct (status_ok r) eqn:Hst; cbn [raise ret fst snd];
    [|now apply (run_bad_status _ _ _ _ r)].
  destruct (header r) as [| |n] eqn:Hh; cbn [header_int raise ret fst snd];
    [|now apply (run_bad_header _ _ _ _ r)|].
  - (* no header: total_size = 0 *)
    unfold open_wb. cbn [fs log].
    destruct (fs w !! dest) as [f|] eqn:Hf.
    + destruct (writable f) eqn:Hw;
        [|apply (run_denied _ _ _ _ r f); auto; rewrite Hh; discriminate].
      set (w1 := World _ _).
      destruct (receive_run dest 0 (chunks r) (ending r) 0 w1
                  (File (readable f) true []))
        as (evs & H1 & H2 & H3 & H4); [apply lookup_insert_eq|].
      destruct (receive dest 0 (chunks r) (ending r) 0 w1) as [res w2].
      cbn [fst snd] in *. subst w2 res. cbn [fs log w1].
      rewrite insert_insert_eq. unfold append_data. cbn [readable writable data app].
      pose proof (run_streamed net url dest w r 0 (readable f) evs Hnet Hst) as R.
      rewrite Hh, Hf in R. specialize (R eq_refl (conj Hw eq_refl) H2 H3).
      destruct (ending r); unfold print, emit, ret; cbn [fst snd fs log];
        rewrite <- ?app_assoc in *; cbn [app] in *; try rewrite app_nil_r in R;
        exact R.
    + set (w1 := World _ _).
      destruct (receive_run dest 0 (chunks r) (ending r) 0 w1
                  (File true true []))
        as (evs & H1 & H2 & H3 & H4); [apply lookup_insert_eq|].
      destruct (receive dest 0 (chunks r) (ending r) 0 w1) as [res w2].
      cbn [fst snd] in *. subst w2 res. cbn [fs log w1].
      rewrite insert_insert_eq. unfold append_data. cbn [readable writable data app].
      pose proof (run_streamed net url dest w r 0 true evs Hnet Hst) as R.
      rewrite Hh, Hf in R. specialize (R eq_refl eq_refl H2 H3).
      destruct (ending r); unfold print, emit, ret; cbn [fst snd fs log];
        rewrite <- ?app_assoc in *; cbn [app] in *; try rewrite app_nil_r in R;
        exact R.
  - unfold open_wb. cbn [fs log].
    destruct (fs w !! dest) as [f|] eqn:Hf.
    + destruct (writable f) eqn:Hw;
        [|apply (run_denied _ _ _ _ r f); auto; rewrite Hh; discriminate].
      set (w1 := World _ _).
      destruct (receive_run dest n (chunks r) (ending r) 0 w1
                  (File (readable f) true []))
        as (evs & H1 & H2 & H3 & H4); [apply lookup_insert_eq|].
      destruct (receive dest n (chunks r) (ending r) 0 w1) as [res w2].
      cbn [fst snd] in *. subst w2 res. cbn [fs log w1].
      rewrite insert_insert_eq. unfold append_data. cbn [readable writable data app].
      pose proof (run_streamed net url dest w r n (readable f) evs Hnet Hst) as R.
      rewrite Hh, Hf in R. specialize (R eq_refl (conj Hw eq_refl) H2 H3).
      destruct (ending r); unfold print, emit, ret; cbn [fst snd fs log];
        rewrite <- ?app_assoc in *; cbn [app] in *; try rewrite app_nil_r in R;
        exact R.
    + set (w1 := World _ _).
      destruct (receive_run dest n (chunks r) (ending r) 0 w1
                  (File true true []))
        as (evs & H1 & H2 & H3 & H4); [apply lookup_insert_eq|].
      destruct (receive dest n (chunks r) (ending r) 0 w1) as [res w2].
      cbn [fst snd] in *. subst w2 res. cbn [fs log w1].
      rewrite insert_insert_eq. unfold append_data. cbn [readable writable data app].
      pose proof (run_streamed net url dest w r n true evs Hnet Hst) as R.
      rewrite Hh, Hf in R. specialize (R eq_refl eq_refl H2 H3).
      destruct (ending r); unfold print, emit, ret; cbn [fst snd fs log];
        rewrite <- ?app_assoc in *; cbn [app] in *; try rewrite app_nil_r in R;
        exact R.
Qed.

Lemma download_file_runs (net : network) (url dest : string) (w : world)
  (res : outcome string) (w' : world) :
  download_file net url dest w = (res, w') -> download_run net url dest w res w'.
Proof.
  intros H. pose proof (download_file_run net url dest w) as R.
  now rewrite H in R.
Qed.

(** C2, as the code has it: after a download that returns, the destination
    holds exactly the bytes that were received, so its size is the number
    of bytes received; it is the advertised size S exactly when S bytes
    were received, and [download_file] never compares the two. *)
Theorem download_success_size (net : network) (url dest : string)
  (w w' : world) (x : string) :
  download_file net url dest w = (Ok x, w') ->
  exists r f,
    net url = Reply r
    /\ ending r = Complete
    /\ fs w' !! dest = Some f
    /\ data f = concat (chunks r)
    /\ forall S, header r = Length S ->
         (Z.of_nat (length (data f)) = S <->
          Z.of_nat (length (concat (chunks r))) = S).
Proof.
  intros H. apply download_file_runs in H.
  inversion H as [ | | | | r T rd evs Hnet Hst HT Hopen Hevs Hprog Hres Hw ].
  destruct (ending r) eqn:He; [|discriminate].
  exists r, (File rd true (concat (chunks r))).
  cbn [fs data]. rewrite lookup_insert_eq. now repeat split.
Qed.

Lemma download_success_size_witness :
  exists r f,
    honest onnx_url = Reply r
    /\ ending r = Complete
    /\ fs (snd (download_file honest onnx_url dest_path (World ∅ [])))
         !! dest_path = Some f
    /\ data f = concat (chunks r)
    /\ forall S, header r = Length S ->
         (Z.of_nat (length (data f)) = S <->
          Z.of_nat (length (concat (chunks r))) = S).
Proof.
  apply (download_success_size honest onnx_url dest_path (World ∅ [])
           _ dest_path).
  vm_compute. reflexivity.
Defined.

(** C2 as stated fails: the reply announces 10 bytes and delivers 3; the
    download returns and the destination holds 3 bytes. *)
Lemma short_body_accepted :
  short_body onnx_url
    = Reply (Response true (Length 10) [[x01; x02; x03]] Complete)
  /\ fst (download_file short_body onnx_url dest_path (World ∅ []))
     = Ok dest_path
  /\ fs (snd (download_file short_body onnx_url dest_path (World ∅ [])))
       !! dest_path = Some (File true true [x01; x02; x03]).
Proof. repeat split; vm_compute; reflexivity. Qed.

(** C3, as the code has it: a failing download makes one request and
    raises to its caller. When the connection breaks while the body is
    read, the destination holds the bytes received so far; when the
    failure comes earlier (no connection, error status, unusable header,
    destination not writable) no file is created or changed. *)
Theorem download_failure (net : network) (url dest : string)
  (w w' : world) (e : exn) :
  download_file net url dest w = (Raise e, w') ->
  gets (log w') = gets (log w) ++ [url]
  /\ ((e = ChunkedEncodingError
       /\ exists r rd, net url = Reply r /\ ending r = Broken
                       /\ fs w' !! dest
                          = Some (File rd true (concat (chunks r))))
      \/ (e <> ChunkedEncodingError /\ fs w' = fs w)).
Proof.
  intros H. apply download_file_runs in H.
  inversion H as [ Hnet | r Hnet Hst | r Hnet Hst Hh | r f Hnet Hst Hh Hf Hw
                 | r T rd evs Hnet Hst HT Hopen Hevs Hprog Hres Hw ];
    subst; cbn [fs log].
  1-4: split; [apply gets_app | right; split; [discriminate | reflexivity]].
  destruct (ending r) eqn:He; [discriminate|].
  injection Hres as <-. split.
  - assert (gets evs = []) as Hg.
    { clear -Hevs. induction evs as [|ev evs IH]; [reflexivity|].
      cbn [forallb] in Hevs. apply andb_prop in Hevs as [Hev Hevs].
      unfold gets in *. cbn [flat_map]. rewrite (IH Hevs).
      now destruct ev. }
    rewrite !gets_app, Hg. reflexivity.
  - left. split; [reflexivity|]. exists r, rd.
    rewrite lookup_insert_eq. auto.
Qed.

Lemma download_failure_witness :
  gets (log (snd (download_file breaks onnx_url dest_path (World ∅ []))))
  = gets [] ++ [onnx_url]
  /\ ((ChunkedEncodingError = ChunkedEncodingError
       /\ exists r rd, breaks onnx_url = Reply r /\ ending r = Broken
            /\ fs (snd (download_file breaks onnx_url dest_path (World ∅ [])))
                 !! dest_path = Some (File rd true (concat (chunks r))))
      \/ (ChunkedEncodingError <> ChunkedEncodingError
          /\ fs (snd (download_file breaks onnx_url dest_path (World ∅ [])))
             = ∅)).
Proof.
  apply (download_failure breaks onnx_url dest_path (World ∅ [])).
  vm_compute. reflexivity.
Defined.

(** C3 as stated fails: with no connection the download raises and there
    is no file at the destination, partial or otherwise. *)
Lemma no_partial_file_when_offline :
  fst (download_file offline onnx_url dest_path (World ∅ []))
  = Raise ConnectionError
  /\ fs (snd (download_file offline onnx_url dest_path (World ∅ [])))
       !! dest_path = None.
Proof. split; vm_compute; reflexivity. Qed.

Lemma transfer_no_get (path : string) (evs : list event) :
  forallb (transfer_event path) evs = true -> gets evs = [].
Proof.
  induction evs as [|ev evs IH]; [reflexivity|].
  cbn [forallb]. intros H. apply andb_prop in H as [Hev Hevs].
  unfold gets in *. cbn [flat_map]. rewrite (IH Hevs). now destruct ev.
Qed.

(** C4, as the code has it: when the reply carries a length header with a
    positive value S and the destination can be opened, one progress
    report (bytes so far, S) is printed after each non-empty chunk, with
    the running total of the bytes received; when the header is absent or
    its value is not positive, no progress report of any kind is printed. *)
Theorem progress_reporting (net : network) (url dest : string) (w : world)
  (r : response) :
  net url = Reply r ->
  status_ok r = true ->
  match fs w !! dest with
  | Some f => writable f = true
  | None => True
  end ->
  exists evs,
    log (snd (download_file net url dest w)) = log w ++ evs
    /\ progress_reports evs =
         match header r with
         | Length n =>
             if (n >? 0)%Z
             then map (fun d => (d, n)) (running_totals 0 (chunks r))
             else []
         | Absent | Malformed => []
         end.
Proof.
  intros Hnet Hst Hopen.
  pose proof (download_file_run net url dest w) as R.
  inversion R as [ Hn | r' Hn Hs | r' Hn Hs Hh | r' f Hn Hs Hh Hf Hw
                 | r' T rd evs Hn Hs HT Hop Hevs Hprog Hres Hw' ];
    rewrite Hnet in Hn; try discriminate; injection Hn as <-;
    try congruence.
  - exists [Get url]. cbn [log]. split; [reflexivity|]. now rewrite Hh.
  - rewrite Hf in Hopen. congruence.
  - exists ([Get url; Open dest] ++ evs ++
            match ending r with
            | Complete => [Print Newline]
            | Broken => []
            end).
    cbn [log]. split; [reflexivity|].
    rewrite (progress_reports_app [Get url; Open dest]).
    rewrite progress_reports_app, Hprog.
    assert (progress_reports match ending r with
                             | Complete => [Print Newline]
                             | Broken => []
                             end = []) as -> by now destruct (ending r).
    rewrite app_nil_r. cbn [progress_reports flat_map app].
    destruct (header r) as [| |n]; cbn [header_int] in HT.
    + injection HT as <-. reflexivity.
    + discriminate.
    + now injection HT as <-.
Qed.

Lemma progress_reporting_witness :
  exists evs,
    log (snd (download_file honest onnx_url dest_path (World ∅ [])))
    = [] ++ evs
    /\ progress_reports evs =
         match header (Response true (Length 4) [[x01; x02; x03]; [x04]]
                                Complete) with
         | Length n =>
             if (n >? 0)%Z
             then map (fun d => (d, n))
                      (running_totals 0 [[x01; x02; x03]; [x04]])
             else []
         | Absent | Malformed => []
         end.
Proof.
  apply (progress_reporting honest onnx_url dest_path (World ∅ [])
           (Response true (Length 4) [[x01; x02; x03]; [x04]] Complete)).
  - reflexivity.
  - reflexivity.
  - vm_compute. exact I.
Defined.

(** C4 as stated fails: without a length header the chunks are written
    and nothing is reported while they arrive, only the closing newline
    is printed. *)
Lemma no_progress_without_length :
  log (snd (download_file no_length onnx_url dest_path (World ∅ [])))
  = [Get onnx_url; Open dest_path;
     Write dest_path [x01; x02; x03]; Write dest_path [x04];
     Print Newline]
  /\ progress_reports
       (log (snd (download_file no_length onnx_url dest_path (World ∅ []))))
     = [].
Proof. split; vm_compute; reflexivity. Qed.

End Download.

(** ** download_trocr_onnx.py: the whole script *)
Section Main.
Import DownloadTrocrOnnx Samples.

Lemma footprint_ret {A} (a : A) : footprint targets no_rename (ret a).
Proof. intros w. exists []. cbn. now rewrite app_nil_r. Qed.

Lemma footprint_bind {A B} (m : M A) (k : A -> M B) :
  footprint targets no_rename m ->
  (forall a, footprint targets no_rename (k a)) ->
  footprint targets no_rename (bind m k).
Proof.
  intros Hm Hk w. unfold bind.
  destruct (Hm w) as (evs & Hl & Hp & Hf).
  destruct (m w) as [[a|e] w1]; cbn [fst snd] in *.
  - destruct (Hk a w1) as (evs' & Hl' & Hp' & Hf').
    exists (evs ++ evs'). rewrite Hl', Hl, app_assoc, forallb_app, Hp, Hp'.
    repeat split. intros q Hq. now rewrite Hf', Hf.
  - exists evs. auto.
Qed.

Lemma footprint_try_except {A} (m : M A) (h : exn -> M A) :
  footprint targets no_rename m ->
  (forall e, footprint targets no_rename (h e)) ->
  footprint targets no_rename (try_except m h).
Proof.
  intros Hm Hh w. unfold try_except.
  destruct (Hm w) as (evs & Hl & Hp & Hf).
  destruct (m w) as [[a|e] w1]; cbn [fst snd] in *.
  - exists evs. auto.
  - destruct (Hh e w1) as (evs' & Hl' & Hp' & Hf').
    exists (evs ++ evs'). rewrite Hl', Hl, app_assoc, forallb_app, Hp, Hp'.
    repeat split. intros q Hq. now rewrite Hf', Hf.
Qed.

Lemma footprint_print (m : message) : footprint targets no_rename (print m).
Proof. intros w. exists [Print m]. cbn. auto. Qed.

Lemma footprint_stat_size (path : string) :
  footprint targets no_rename (stat_size path).
Proof.
  intros w. exists []. unfold stat_size.
  destruct (fs w !! path); cbn; now rewrite app_nil_r.
Qed.

Lemma transfer_no_rename (path : string) (evs : list event) :
  forallb (transfer_event path) evs = true -> forallb no_rename evs = true.
Proof.
  induction evs as [|ev evs IH]; [reflexivity|].
  cbn [forallb]. intros H. apply andb_prop in H as [Hev Hevs].
  rewrite (IH Hevs). now destruct ev.
Qed.

Lemma footprint_download_file (net : network) (url dest : string) :
  targets dest -> footprint targets no_rename (download_file net url dest).
Proof.
  intros Hd w. pose proof (download_file_run net url dest w) as R.
  inversion R as [ Hn | r Hn Hs | r Hn Hs Hh | r f Hn Hs Hh Hf Hw
                 | r T rd evs Hn Hs HT Hop Hevs Hprog Hres Hw' ];
    cbn [fs log].
  1-4: exists [Get url]; auto.
  eexists. split; [reflexivity|]. split.
  - cbn [app forallb no_rename is_rename negb]. rewrite forallb_app.
    rewrite (transfer_no_rename dest evs Hevs). now destruct (ending r).
  - intros q Hq. apply lookup_insert_ne. intros ->. now apply Hq.
Qed.

Lemma footprint_downloads (net : network) :
  footprint targets no_rename (downloads net).
Proof.
  unfold downloads.
  apply footprint_bind; [apply footprint_print | intros _].
  apply footprint_bind;
    [apply footprint_download_file; left; reflexivity | intros _].
  apply footprint_bind; [apply footprint_print | intros _].
  apply footprint_bind; [apply footprint_stat_size | intros size].
  apply footprint_bind; [apply footprint_print | intros _].
  apply footprint_bind; [apply footprint_print | intros _].
  apply footprint_bind;
    [apply footprint_download_file; right; reflexivity | intros _].
  apply footprint_print.
Qed.

Lemma footprint_after_preamble (net : network) :
  footprint targets no_rename (after_preamble net).
Proof.
  unfold after_preamble, handler.
  apply footprint_bind.
  - apply footprint_try_except.
    + apply footprint_bind; [apply footprint_downloads|].
      intros _. apply footprint_ret.
    + intros e.
      apply footprint_bind; [apply footprint_print | intros _].
      apply footprint_bind; [apply footprint_print | intros _].
      apply footprint_ret.
  - intros [v|]; [apply footprint_ret|].
    apply footprint_bind; [apply footprint_print|]. intros _.
    apply footprint_ret.
Qed.

Lemma main_after_preamble (net : network) (w w1 : world) :
  preamble w = (Ok tt, w1) -> main net w = after_preamble net w1.
Proof.
  intros H. unfold main. unfold bind at 1. now rewrite H.
Qed.

Lemma preamble_with_model (files : gmap string file) (f : file) :
  files !! models_dir = None -> files !! existing_model = Some f ->
  preamble (World files [])
  = (Ok tt,
     World (<[backup_path := f]> (delete existing_model files))
           [Print Banner; Mkdir models_dir; Print (BackingUp backup_path);
            Rename existing_model backup_path;
            Print Announce; Print Option1; Print Option2; Print Choosing]).
Proof.
  intros Hd Hm.
  unfold preamble, bind, print, emit, mkdir_exist_ok, path_exists, os_rename.
  cbn [fs log app]. rewrite Hd. cbn [fs log app]. rewrite Hm.
  rewrite bool_decide_eq_true_2 by (eexists; reflexivity).
  cbn [fs log app]. rewrite Hm. reflexivity.
Qed.

Lemma preamble_without_model (files : gmap string file) :
  files !! models_dir = None -> files !! existing_model = None ->
  preamble (World files [])
  = (Ok tt,
     World files
           [Print Banner; Mkdir models_dir;
            Print Announce; Print Option1; Print Option2; Print Choosing]).
Proof.
  intros Hd Hm.
  unfold preamble, bind, print, emit, mkdir_exist_ok, path_exists, os_rename.
  cbn [fs log app]. rewrite Hd. cbn [fs log app]. rewrite Hm.
  rewrite bool_decide_eq_false_2 by (intros [? ?]; discriminate).
  reflexivity.
Qed.

Lemma preamble_succeeds (files : gmap string file) :
  files !! models_dir = None ->
  exists w1, preamble (World files []) = (Ok tt, w1).
Proof.
  intros Hd. destruct (files !! existing_model) as [f|] eqn:Hm.
  - eexists. exact (preamble_with_model files f Hd Hm).
  - eexists. exact (preamble_without_model files Hd Hm).
Qed.

Lemma never_renamed_then_written (path : string) (l : list event) :
  (forall src dst, In (Rename src dst) l -> src <> path) ->
  opened path l = true -> renamed_before_write path l = false.
Proof.
  induction l as [|ev l IH]; intros Hr Ho; [discriminate|].
  assert (forall src dst, In (Rename src dst) l -> src <> path) as Hr'
      by (intros src dst Hin; apply (Hr src dst); now right).
  unfold opened in *. cbn [existsb renamed_before_write] in *.
  destruct ev as [u | q | src dst | q | q c | m]; cbn [orb] in Ho; auto.
  - assert (src <> path) as Hne by (apply (Hr src dst); now left).
    apply String.eqb_neq in Hne. rewrite Hne. auto.
  - destruct (String.eqb q path); [reflexivity | auto].
  - destruct (String.eqb q path); [reflexivity | auto].
Qed.

Lemma paths_distinct :
  ~ targets backup_path /\ encoder_path <> dest_path.
Proof.
  split.
  - intros [H | H]; apply String.eqb_eq in H; discriminate.
  - intros H. apply String.eqb_eq in H. discriminate.
Qed.

(** C1, as the code has it: when models/trocr.onnx exists as the script
    starts, it is renamed to models/trocr_pytorch.pth before the
    destination is opened or written, and the backup path then holds the
    old model whatever it held before. This is the only rename of the
    script: the encoder destination is never renamed, so whenever the
    encoder download opens its destination, no backup preceded it. *)
Theorem model_backed_up_before_download (net : network)
  (files : gmap string file) (f : file) :
  files !! models_dir = None ->
  files !! existing_model = Some f ->
  let w := snd (script net files) in
  renamed_before_write dest_path (log w) = true
  /\ In (Rename dest_path backup_path) (log w)
  /\ fs w !! backup_path = Some f
  /\ (forall src dst, In (Rename src dst) (log w) ->
                      src = dest_path /\ dst = backup_path)
  /\ (opened encoder_path (log w) = true ->
      renamed_before_write encoder_path (log w) = false).
Proof.
  intros Hd Hm w.
  pose proof (preamble_with_model files f Hd Hm) as Hpre.
  set (w1 := World (<[backup_path := f]> (delete existing_model files)) _)
    in Hpre.
  assert (w = snd (after_preamble net w1)) as Hw
      by (unfold w, script; now rewrite (main_after_preamble net _ w1 Hpre)).
  destruct (footprint_after_preamble net w1) as (evs & Hlog & Hnr & Hfs).
  rewrite <- Hw in Hlog, Hfs. cbn [log fs w1] in Hlog, Hfs.
  assert (forall src dst, In (Rename src dst) (log w) ->
                          src = dest_path /\ dst = backup_path) as Honly.
  { intros src dst Hin. rewrite Hlog in Hin. apply in_app_or in Hin as [Hin|Hin].
    - cbn [In] in Hin.
      repeat (destruct Hin as [Hin|Hin]; [try discriminate|]);
        [injection Hin as <- <-; auto | destruct Hin].
    - rewrite forallb_forall in Hnr. specialize (Hnr _ Hin). discriminate. }
  repeat split.
  - rewrite Hlog. reflexivity.
  - rewrite Hlog. apply in_or_app. left. cbn [In]. auto 10.
  - rewrite Hfs by apply paths_distinct. apply lookup_insert_eq.
  - now apply (Honly src dst).
  - now apply (Honly src dst).
  - apply never_renamed_then_written.
    intros src dst Hin Heq. apply Honly in Hin as [Hsrc _].
    apply (proj2 paths_distinct). congruence.
Qed.

Lemma model_backed_up_before_download_witness :
  let w := snd (script honest
                  ({[dest_path := old_file; backup_path := older_file]})) in
  renamed_before_write dest_path (log w) = true
  /\ In (Rename dest_path backup_path) (log w)
  /\ fs w !! backup_path = Some old_file
  /\ (forall src dst, In (Rename src dst) (log w) ->
                      src = dest_path /\ dst = backup_path)
  /\ (opened encoder_path (log w) = true ->
      renamed_before_write encoder_path (log w) = false).
Proof.
  apply (model_backed_up_before_download honest
           ({[dest_path := old_file; backup_path := older_file]}) old_file).
  - vm_compute. reflexivity.
  - vm_compute. reflexivity.
Defined.

(** C1 as stated fails for the second download: models/trocr_encoder.onnx
    exists before the script runs, it is opened and rewritten without any
    rename, and its old contents are in no backup. *)
Lemma encoder_overwritten_without_backup :
  let files : gmap string file := {[encoder_path := old_file]} in
  let w := snd (script honest files) in
  files !! encoder_path = Some old_file
  /\ opened encoder_path (log w) = true
  /\ renamed_before_write encoder_path (log w) = false
  /\ fs w !! encoder_path = Some (File true true [x01; x02; x03; x04])
  /\ fs w !! backup_path = None.
Proof. cbv zeta. repeat split; vm_compute; reflexivity. Qed.

(** C8: when the preamble has run, the exit status of the script is 0 if
    the body of the [try] completes and 1 if an exception is caught in
    it. *)
Theorem exit_status (net : network) (files : gmap string file) :
  files !! models_dir = None ->
  exists w1,
    preamble (World files []) = (Ok tt, w1)
    /\ fst (script net files) =
         match fst (downloads net w1) with
         | Ok _ => Ok 0%Z
         | Raise _ => Ok 1%Z
         end.
Proof.
  intros Hd. destruct (preamble_succeeds files Hd) as [w1 Hpre].
  exists w1. split; [assumption|].
  unfold script. rewrite (main_after_preamble net _ w1 Hpre).
  unfold after_preamble, bind, try_except, handler, bind, print, emit, ret.
  destruct (downloads net w1) as [[[]|e] w2]; reflexivity.
Qed.

Lemma exit_status_witness :
  exists w1,
    preamble (World ∅ []) = (Ok tt, w1)
    /\ fst (script offline ∅) =
         match fst (downloads offline w1) with
         | Ok _ => Ok 0%Z
         | Raise _ => Ok 1%Z
         end.
Proof.
  apply (exit_status offline ∅). vm_compute. reflexivity.
Defined.

End Main.

(** * Further properties of the scripts *)

(** ** The Kitty frame *)
Section KittyMore.
Import Base64 KittyTestSimple.

Lemma frame_payload_frame (img : list byte) :
  frame_payload (frame img) = Some (b64encode img).
Proof.
  unfold frame_payload, frame.
  rewrite (app_assoc [ESC]), strip_prefix_app. apply strip_suffix_app.
Qed.

Lemma b64_char_plain (c : ascii) :
  is_b64_char c = true ->
  c <> ESC /\ c <> ";"%char /\ c <> "\"%char.
Proof.
  intros H. repeat split; intros ->; vm_compute in H; discriminate.
Qed.

Lemma b64encode_chars (img : list byte) (c : ascii) :
  In c (b64encode img) -> is_b64_char c = true.
Proof.
  intros Hin. pose proof (b64encode_alphabet img) as Hall.
  rewrite forallb_forall in Hall. now apply Hall.
Qed.

(** X1: the frame written for an image of n bytes has 15 + 4 * ceil(n / 3)
    characters: 13 of control data, the payload, 2 of terminator. The
    whole payload goes into this one escape sequence, whatever its
    size. *)
Theorem frame_length (img : list byte) :
  length (frame img) = 15 + 4 * ((length img + 2) / 3)
  /\ length (frame img) = 13 + length (b64encode img) + 2
  /\ length (b64encode img) mod 4 = 0.
Proof.
  assert (length (frame img) = 13 + length (b64encode img) + 2) as Hlen.
  { unfold frame. rewrite !length_app. cbn [length txt]. cbn. lia. }
  rewrite Hlen, b64encode_length. repeat split; try lia.
  rewrite Nat.mul_comm. apply Nat.Div0.mod_mul.
Qed.

(** X2: the payload never contains ESC, ";" or a backslash: in every frame
    ESC occurs exactly twice (opening the frame and its terminator) and
    ";" exactly once (closing the control data), so the frame can be cut
    apart without looking at the image. *)
Theorem frame_delimiters (img : list byte) :
  count_occ ascii_dec (frame img) ESC = 2
  /\ count_occ ascii_dec (frame img) ";"%char = 1
  /\ count_occ ascii_dec (b64encode img) "\"%char = 0.
Proof.
  assert (forall c, (c = ESC \/ c = ";"%char \/ c = "\"%char) ->
                    count_occ ascii_dec (b64encode img) c = 0) as Hfree.
  { intros c Hc. apply count_occ_not_In. intros Hin.
    apply b64encode_chars, b64_char_plain in Hin as (H1 & H2 & H3).
    destruct Hc as [-> | [-> | ->]]; congruence. }
  unfold frame. rewrite !count_occ_app.
  rewrite !Hfree by auto. repeat split; vm_compute; reflexivity.
Qed.

(** X3: two images with the same frame are the same image: the emission
    loses nothing. *)
Theorem frame_injective (a b : list byte) : frame a = frame b -> a = b.
Proof.
  intros H. apply (f_equal frame_payload) in H.
  rewrite !frame_payload_frame in H. injection H as H.
  apply (f_equal b64decode) in H.
  rewrite !b64decode_b64encode in H. now injection H.
Qed.

Lemma frame_injective_witness :
  [x01; x02] = [x01; x02].
Proof.
  apply (frame_injective [x01; x02] [x01; x02]). reflexivity.
Defined.

Lemma count_pad_char (n : N) (l : text) :
  (n < 64)%N ->
  count_occ ascii_dec (b64_char n :: l) pad = count_occ ascii_dec l pad.
Proof.
  intros Hn. apply count_occ_cons_neq. intros Heq.
  pose proof (char_not_pad n Hn) as Hp. rewrite Heq in Hp.
  now rewrite Ascii.eqb_refl in Hp.
Qed.

(** X4: the number of "=" in the payload is fixed by the size of the image:
    none when the size is a multiple of 3, one when it leaves remainder
    2, two when it leaves remainder 1. *)
Theorem payload_padding (img : list byte) :
  count_occ ascii_dec (b64encode img) pad = (3 - length img mod 3) mod 3.
Proof.
  induction img as [| a | a b | a b c l IH] using triples_ind.
  - reflexivity.
  - cbn [b64encode].
    destruct (sextets_small (Byte.to_N a) 0 (byte_small a) ltac:(lia))
      as (S0 & S1 & _).
    rewrite !count_pad_char by assumption. reflexivity.
  - cbn [b64encode].
    destruct (sextets_small (Byte.to_N a) (Byte.to_N b) (byte_small a)
                (byte_small b)) as (S0 & S1 & _).
    destruct (sextets_small (Byte.to_N b) 0 (byte_small b) ltac:(lia))
      as (_ & _ & S2 & _).
    rewrite !count_pad_char by assumption. reflexivity.
  - cbn [b64encode].
    destruct (sextets_small (Byte.to_N a) (Byte.to_N b) (byte_small a)
                (byte_small b)) as (S0 & S1 & _).
    destruct (sextets_small (Byte.to_N b) (Byte.to_N c) (byte_small b)
                (byte_small c)) as (_ & _ & S2 & _).
    destruct (sextets_small (Byte.to_N c) 0 (byte_small c) ltac:(lia))
      as (_ & _ & _ & S3).
    rewrite !count_pad_char by assumption. rewrite IH.
    cbn [length].
    replace (S (S (S (length l)))) with (length l + 1 * 3) by lia.
    now rewrite Nat.Div0.mod_add.
Qed.

(** X5: the script writes all or nothing: either the renderer ran and left a
    readable image, and the output is the frame of that image followed by
    the two closing lines, or the script does not end normally and has
    written nothing at all. *)
Theorem kitty_all_or_nothing (renderer : child) (fs : gmap string file) :
  (fst (script renderer fs) = Stops (Ok tt)
   /\ exists effect f t1 t2,
        renderer = Runs effect
        /\ effect fs !! image_path = Some f
        /\ readable f = true
        /\ snd (script renderer fs) = [frame (data f); t1; t2])
  \/ (fst (script renderer fs) <> Stops (Ok tt)
      /\ snd (script renderer fs) = []).
Proof.
  destruct renderer as [| | effect]; cbn [script fst snd];
    try (right; split; [discriminate | reflexivity]).
  unfold read_file.
  destruct (effect fs !! image_path) as [f|] eqn:Hf; cbn [fst snd];
    [|right; split; [discriminate | reflexivity]].
  destruct (readable f) eqn:Hr; cbn [fst snd];
    [|right; split; [discriminate | reflexivity]].
  left. split; [reflexivity|].
  exists effect, f. do 2 eexists. repeat split; try eassumption.
Qed.

End KittyMore.

(** ** Lines and reports *)
Section InspectorMore.
Import OutputInspector Views.

Lemma join_lines_cons_char (c : ascii) (l : text) (ls : list text) :
  join_lines ((c :: l) :: ls) = c :: join_lines (l :: ls).
Proof. destruct ls; reflexivity. Qed.

Lemma echoes_map_Echo (ls : list text) : echoes (map Echo ls) = ls.
Proof.
  induction ls as [|l ls IH]; [reflexivity|].
  unfold echoes in *. cbn [map flat_map app]. now rewrite IH.
Qed.

Lemma flag_line_detail (l : text) : flag_line l = true -> detail_line l = true.
Proof.
  unfold flag_line, detail_line. intros H.
  change (txt "has_tables=") with (txt "has_tables" ++ txt "=") in H.
  apply contains_prefix_pattern in H. now rewrite H.
Qed.

(** X6: splitting a text at newlines loses nothing: the lines joined
    with newlines give the text back, no line contains a newline, and
    there is one line more than there are newlines (so a text ending in a
    newline has a last, empty line). *)
Theorem split_lines_join (s : text) :
  join_lines (split_lines s) = s
  /\ forallb one_line (split_lines s) = true
  /\ length (split_lines s) = 1 + count_occ ascii_dec s NL.
Proof.
  induction s as [|c s (IHj & IHo & IHn)]; [repeat split|].
  cbn [split_lines].
  destruct (split_lines s) as [|l ls] eqn:Hs;
    [now apply split_lines_nonempty in Hs|].
  destruct (Ascii.eqb c NL) eqn:Hc.
  - apply Ascii.eqb_eq in Hc as ->.
    repeat split.
    + change (join_lines ([] :: l :: ls)) with (NL :: join_lines (l :: ls)).
      now rewrite IHj.
    + exact IHo.
    + cbn [length] in *. rewrite count_occ_cons_eq by reflexivity. lia.
  - repeat split.
    + rewrite join_lines_cons_char. now rewrite IHj.
    + cbn [forallb one_line] in *. now rewrite Hc.
    + cbn [length] in *. rewrite count_occ_cons_neq; [lia|].
      intros ->. now rewrite Ascii.eqb_refl in Hc.
Qed.

(** X7: the scan of test_table_pdf.py only echoes what the renderer
    wrote: every echoed line is one of the lines of the captured text and
    contains "has_tables", "LayoutAnalysis" or "LayoutLM". *)
Theorem scan_echoes_lines (stderr l : text) :
  In l (echoes (scan stderr)) ->
  In l (split_lines stderr) /\ detail_line l = true.
Proof.
  unfold scan. destruct (tables_gate stderr).
  - change (echoes (TablesDetected :: ?rs)) with (echoes rs).
    rewrite echoes_map_Echo. intros Hin. now apply filter_In in Hin.
  - destruct (List.find flag_line (split_lines stderr)) as [l'|] eqn:Hf;
      [|intros []].
    intros [<- | []]. apply find_some in Hf as [Hin Hflag].
    split; [assumption | now apply flag_line_detail].
Qed.

Lemma scan_echoes_lines_witness :
  In (txt "has_tables=false") (split_lines (txt "has_tables=false"))
  /\ detail_line (txt "has_tables=false") = true.
Proof.
  apply (scan_echoes_lines (txt "has_tables=false") (txt "has_tables=false")).
  vm_compute. left. reflexivity.
Defined.

(** X8: "Tables detected" is printed exactly when "LayoutAnalysis" or
    "has_tables=true" occurs in the captured text, and then a line that
    contains one of the two is always among the lines echoed below it. *)
Theorem detection_is_explained (stderr : text) :
  (In TablesDetected (scan stderr) <-> tables_gate stderr = true)
  /\ (tables_gate stderr = true ->
      exists l, In l (echoes (scan stderr))
                /\ (contains (txt "LayoutAnalysis") l = true
                    \/ contains (txt "has_tables=true") l = true)).
Proof.
  split.
  - unfold scan. destruct (tables_gate stderr).
    + split; [reflexivity | intros _; now left].
    + split; [|discriminate]. intros H.
      destruct (List.find flag_line (split_lines stderr));
        cbn [In] in H; [destruct H as [H|[]]; discriminate | destruct H].
  - intros Hg. unfold scan. rewrite Hg.
    change (echoes (TablesDetected :: ?rs)) with (echoes rs).
    rewrite echoes_map_Echo.
    unfold tables_gate in Hg. apply orb_prop in Hg.
    assert (exists l, In l (split_lines stderr)
                      /\ (contains (txt "LayoutAnalysis") l = true
                          \/ contains (txt "has_tables=true") l = true))
      as (l & Hin & Hl).
    { destruct Hg as [Hg | Hg];
        rewrite contains_linewise in Hg
          by (apply script_patterns_one_line; unfold script_patterns;
              cbn [In]; tauto);
        apply spec_matches_iff in Hg as (l & Hin & Hl); eauto. }
    exists l. split; [|assumption].
    apply filter_In. split; [assumption|].
    unfold detail_line. destruct Hl as [Hl | Hl].
    + rewrite Hl. now rewrite orb_true_r.
    + change (txt "has_tables=true") with (txt "has_tables" ++ txt "=true")
        in Hl.
      apply contains_prefix_pattern in Hl. now rewrite Hl.
Qed.

End InspectorMore.

(** ** Runs of the two scripts that start children *)
Section RunsMore.
Import ProcessRunner Views MoreSamples.
Local Open Scope N_scope.

Lemma tested_app (a b : list TestTablePdf.printed) :
  tested (a ++ b) = tested a ++ tested b.
Proof. apply flat_map_app. Qed.

Lemma tested_scanned (rs : list OutputInspector.report) :
  tested (map TestTablePdf.Scanned rs) = [].
Proof. induction rs as [|r rs IH]; [reflexivity | exact IH]. Qed.

(** X9: test_table_pdf.py tests the files in order and stops at the
    first one whose renderer cannot be started or runs into the timeout:
    when the loop ends normally every file has been tested, and when it
    ends with an exception the files tested are exactly those up to and
    including the one that raised it, the later ones are never tried. *)
Theorem loop_tests_in_order (spawn : string -> program)
  (pdfs : list string) :
  (fst (TestTablePdf.loop spawn pdfs) = Ok tt ->
   tested (snd (TestTablePdf.loop spawn pdfs)) = pdfs
   /\ forall pdf, In pdf pdfs ->
                  returned (run_with_timeout 5000 (spawn pdf)) = true)
  /\ (forall e, fst (TestTablePdf.loop spawn pdfs) = Raise e ->
      exists before pdf later,
        pdfs = before ++ pdf :: later
        /\ tested (snd (TestTablePdf.loop spawn pdfs)) = before ++ [pdf]
        /\ result (run_with_timeout 5000 (spawn pdf)) = Raise e).
Proof.
  induction pdfs as [|pdf pdfs [IHok IHraise]].
  - split; [intros _; split; [reflexivity | intros ? []] | discriminate].
  - cbn [TestTablePdf.loop]. unfold returned.
    destruct (result (run_with_timeout 5000 (spawn pdf)))
      as [[out err]|e0] eqn:Hrun.
    + destruct (TestTablePdf.loop spawn pdfs) as [r rest] eqn:Hloop.
      cbn [fst snd] in *. split.
      * intros Hr. destruct (IHok Hr) as [Ht Hall].
        split.
        -- change (tested (TestTablePdf.Testing pdf :: ?l))
             with (pdf :: tested l).
           rewrite tested_app, tested_scanned. cbn [app tested flat_map].
           fold (tested rest). now rewrite Ht.
        -- intros pdf' [<- | Hin]; [now rewrite Hrun | now apply Hall].
      * intros e Hr.
        destruct (IHraise e Hr) as (before & bad & later & Hp & Ht & Hbad).
        exists (pdf :: before), bad, later. repeat split.
        -- now rewrite Hp.
        -- change (tested (TestTablePdf.Testing pdf :: ?l))
             with (pdf :: tested l).
           rewrite tested_app, tested_scanned. cbn [app tested flat_map].
           fold (tested rest). now rewrite Ht.
        -- assumption.
    + cbn [fst snd]. split; [discriminate|].
      intros e He. injection He as <-.
      exists [], pdf, pdfs. repeat split. assumption.
Qed.








End RunsMore.

(** ** More on downloads *)
Section DownloadMore.
Import DownloadTrocrOnnx Views Samples MoreSamples.

Lemma download_run_frame (net : network) (url dest : string)
  (w w' : world) (res : outcome string) (q : string) :
  download_run net url dest w res w' -> q <> dest ->
  fs w' !! q = fs w !! q.
Proof.
  intros R Hq.
  inversion R; subst; cbn [fs]; try reflexivity.
  now apply lookup_insert_ne.
Qed.

(** The events that a download into [dest] from [url] may add. *)
Lemma download_run_events (net : network) (url dest : string)
  (w w' : world) (res : outcome string) :
  download_run net url dest w res w' ->
  exists evs,
    log w' = log w ++ Get url :: evs
    /\ gets evs = []
    /\ forallb (fun e => match e with
                         | Open p => String.eqb p dest
                         | Write p _ => String.eqb p dest
                         | Print _ => true
                         | _ => false
                         end) evs = true.
Proof.
  intros R.
  inversion R as [ Hn | r Hn Hs | r Hn Hs Hh | r f Hn Hs Hh Hf Hw
                 | r T rd evs Hn Hs HT Hop Hevs Hprog Hres Hw' ];
    subst; cbn [log].
  1-4: exists []; repeat split.
  exists (Open dest :: evs ++ match ending r with
                              | Complete => [Print Newline]
                              | Broken => []
                              end).
  split; [reflexivity|]. split.
  - change (gets (Open dest :: ?l)) with (gets l).
    rewrite gets_app, (transfer_no_get dest evs Hevs).
    now destruct (ending r).
  - cbn [forallb]. rewrite String.eqb_refl, forallb_app. cbn [andb].
    apply andb_true_intro. split; [|now destruct (ending r)].
    rewrite forallb_forall in *. intros ev Hin. specialize (Hevs ev Hin).
    now destruct ev.
Qed.

Lemma receive_skips_empty (path : string) (T : Z) (cs : list (list byte))
  (e : body_end) :
  forall (d : Z) (w : world),
    receive path T cs e d w = receive path T (List.filter nonempty cs) e d w.
Proof.
  induction cs as [|c cs IH]; intros d w; [reflexivity|].
  destruct c as [|b c]; cbn [List.filter nonempty].
  - cbn [receive]. apply IH.
  - cbn [receive]. unfold bind. cbn [write].
    destruct (T >? 0)%Z; cbn [print emit ret]; apply IH.
Qed.

Lemma downloads_unfold (net : network) (w : world) :
  downloads net w =
  match download_file net onnx_url dest_path
          (World (fs w) (log w ++ [Print (DownloadingFrom onnx_url)])) with
  | (Raise e, w1) => (Raise e, w1)
  | (Ok _, w1) =>
      match fs w1 !! dest_path with
      | None =>
          (Raise FileNotFoundError,
           World (fs w1) (log w1 ++ [Print (Downloaded dest_path)]))
      | Some f =>
          match download_file net encoder_url encoder_path
                  (World (fs w1)
                     (log w1 ++ [Print (Downloaded dest_path);
                                 Print (FileSize (length (data f)));
                                 Print EncoderNext])) with
          | (Raise e, w2) => (Raise e, w2)
          | (Ok _, w2) =>
              (Ok tt,
               World (fs w2)
                     (log w2 ++ [Print (DownloadedEncoder encoder_path)]))
          end
      end
  end.
Proof.
  unfold downloads. unfold bind at 1. unfold print at 1, emit at 1.
  unfold bind at 1.
  destruct (download_file net onnx_url dest_path _) as [[x|e] w1];
    [|reflexivity].
  unfold bind at 1. unfold print at 1, emit at 1.
  unfold bind at 1. unfold stat_size at 1. cbn [fs log].
  destruct (fs w1 !! dest_path) as [f|]; [|reflexivity].
  unfold bind at 1. unfold print at 1, emit at 1. cbn [fs log].
  unfold bind at 1. unfold print at 1, emit at 1. cbn [fs log].
  rewrite <- !app_assoc. cbn [app].
  unfold bind at 1.
  destruct (download_file net encoder_url encoder_path _) as [[y|e] w2];
    reflexivity.
Qed.

Lemma after_preamble_unfold (net : network) (w : world) :
  after_preamble net w =
  match downloads net w with
  | (Ok _, w1) => (Ok 0%Z, World (fs w1) (log w1 ++ [Print Done]))
  | (Raise e, w1) =>
      (Ok 1%Z, World (fs w1) (log w1 ++ [Print (Failed e); Print Hints]))
  end.
Proof.
  unfold after_preamble, bind, try_except, handler, bind, print, emit, ret.
  destruct (downloads net w) as [[[]|e] w1]; cbn [fs log];
    rewrite <- ?app_assoc; reflexivity.
Qed.

Lemma preamble_blocked (files : gmap string file) (f : file) :
  files !! models_dir = Some f ->
  preamble (World files []) = (Raise FileExistsError, World files [Print Banner]).
Proof.
  intros Hd. unfold preamble, bind, print, emit, mkdir_exist_ok.
  cbn [fs log app]. now rewrite Hd.
Qed.

Lemma main_blocked (net : network) (w w1 : world) (e : exn) :
  preamble w = (Raise e, w1) -> main net w = (Raise e, w1).
Proof. intros H. unfold main. unfold bind at 1. now rewrite H. Qed.

(** X12: a download touches nothing but its destination and asks for
    nothing but its URL: every other path of the file system is as it
    was, whether the download succeeds or fails, and the events it adds
    are one request for the URL, then only the opening of the
    destination, writes to it and prints. *)
Theorem download_footprint (net : network) (url dest : string) (w : world) :
  (forall q, q <> dest ->
             fs (snd (download_file net url dest w)) !! q = fs w !! q)
  /\ exists evs,
       log (snd (download_file net url dest w)) = log w ++ Get url :: evs
       /\ gets evs = []
       /\ forallb (fun e => match e with
                            | Open p => String.eqb p dest
                            | Write p _ => String.eqb p dest
                            | Print _ => true
                            | _ => false
                            end) evs = true.
Proof.
  pose proof (download_file_run net url dest w) as R. split.
  - intros q Hq. exact (download_run_frame _ _ _ _ _ _ q R Hq).
  - exact (download_run_events _ _ _ _ _ _ R).
Qed.

(** X13: empty chunks in the body are skipped: a reply and the same
    reply without its empty chunks give the same file, the same prints
    and the same result. *)
Theorem empty_chunks_ignored (net net' : network) (url dest : string)
  (w : world) (r : response) :
  net url = Reply r ->
  net' url = Reply (without_empty_chunks r) ->
  download_file net url dest w = download_file net' url dest w.
Proof.
  intros Hn Hn'.
  unfold download_file, requests_get, bind, emit. rewrite Hn, Hn'.
  cbn [ret fst snd]. unfold raise_for_status, without_empty_chunks.
  cbn [status_ok header chunks ending].
  destruct (status_ok r); [|reflexivity].
  cbn [ret].
  destruct (header_int (header r) _) as [[T|e] w1]; [|reflexivity].
  destruct (open_wb dest w1) as [[[]|e] w2]; [|reflexivity].
  now rewrite (receive_skips_empty dest T (chunks r)).
Qed.

Lemma empty_chunks_ignored_witness :
  download_file (fun _ => Reply with_gap) onnx_url dest_path (World ∅ [])
  = download_file (fun _ => Reply (without_empty_chunks with_gap))
      onnx_url dest_path (World ∅ []).
Proof.
  apply (empty_chunks_ignored _ _ onnx_url dest_path (World ∅ []) with_gap);
    reflexivity.
Defined.

Lemma last_cons_default {A} (l : list A) :
  forall x d : A, List.last (x :: l) d = List.last l x.
Proof.
  induction l as [|y l IH]; intros x d; [reflexivity|].
  change (List.last (x :: y :: l) d) with (List.last (y :: l) d).
  now rewrite !IH.
Qed.

Lemma running_totals_sorted (cs : list (list byte)) :
  forall d : Z,
    StronglySorted Z.lt (d :: running_totals d cs)
    /\ List.last (running_totals d cs) d
       = (d + Z.of_nat (length (concat cs)))%Z.
Proof.
  induction cs as [|c cs IH]; intros d.
  - cbn. split; [repeat constructor | lia].
  - destruct c as [|b c].
    + cbn [running_totals concat app]. apply IH.
    + set (chunk := b :: c).
      change (running_totals d (chunk :: cs))
        with ((d + Z.of_nat (length chunk))%Z
              :: running_totals (d + Z.of_nat (length chunk))%Z cs).
      destruct (IH (d + Z.of_nat (length chunk))%Z) as [Hs Hl].
      split.
      * constructor; [assumption|].
        apply StronglySorted_inv in Hs as [_ Hall].
        constructor; [subst chunk; cbn [length]; lia|].
        eapply Forall_impl; [exact Hall|].
        intros x Hx. subst chunk. cbn [length] in *. lia.
      * rewrite last_cons_default, Hl. cbn [concat].
        rewrite length_app. lia.
Qed.

(** X14: on a download that returns, with a positive length header,
    every progress report carries the announced total, the byte counts
    reported grow strictly from report to report, and the last one is the
    size of the file that was written. *)
Theorem progress_is_monotone (net : network) (url dest : string)
  (w w' : world) (x : string) (r : response) (n : Z) :
  download_file net url dest w = (Ok x, w') ->
  net url = Reply r ->
  header r = Length n ->
  (0 < n)%Z ->
  exists evs f,
    log w' = log w ++ evs
    /\ fs w' !! dest = Some f
    /\ Forall (fun p => snd p = n) (progress_reports evs)
    /\ StronglySorted Z.lt (0%Z :: map fst (progress_reports evs))
    /\ List.last (map fst (progress_reports evs)) 0%Z
       = Z.of_nat (length (data f)).
Proof.
  intros H Hnet Hh Hn. apply download_file_runs in H.
  inversion H as [ | | | | r' T rd evs Hn' Hs HT Hop Hevs Hprog Hres Hw ].
  rewrite Hnet in Hn'. injection Hn' as <-.
  rewrite Hh in HT. cbn [header_int] in HT. injection HT as <-.
  destruct (ending r); [|discriminate].
  assert ((n >? 0)%Z = true) as Hpos by lia. rewrite Hpos in Hprog.
  exists ([Get url; Open dest] ++ evs ++ [Print Newline]),
         (File rd true (concat (chunks r))).
  cbn [log fs data]. split; [reflexivity|].
  split; [apply lookup_insert_eq|].
  assert (progress_reports ([Get url; Open dest] ++ evs ++ [Print Newline])
          = map (fun d => (d, n)) (running_totals 0 (chunks r))) as ->.
  { rewrite (progress_reports_app [Get url; Open dest]).
    rewrite progress_reports_app, Hprog. cbn [progress_reports flat_map app].
    now rewrite app_nil_r. }
  rewrite map_map. cbn [fst]. rewrite map_id.
  destruct (running_totals_sorted (chunks r) 0%Z) as [Hs' Hl].
  repeat split; try assumption.
  apply List.Forall_forall. intros p Hin.
  apply in_map_iff in Hin as (d & <- & _). reflexivity.
Qed.

Lemma progress_is_monotone_witness :
  exists evs f,
    log (snd (download_file honest onnx_url dest_path (World ∅ [])))
    = [] ++ evs
    /\ fs (snd (download_file honest onnx_url dest_path (World ∅ [])))
         !! dest_path = Some f
    /\ Forall (fun p => snd p = 4%Z) (progress_reports evs)
    /\ StronglySorted Z.lt (0%Z :: map fst (progress_reports evs))
    /\ List.last (map fst (progress_reports evs)) 0%Z
       = Z.of_nat (length (data f)).
Proof.
  apply (progress_is_monotone honest onnx_url dest_path (World ∅ [])
           _ dest_path
           (Response true (Length 4) [[x01; x02; x03]; [x04]] Complete) 4%Z).
  - vm_compute. reflexivity.
  - reflexivity.
  - reflexivity.
  - lia.
Defined.

Lemma dest_absent_after_backup (files : gmap string file) (f : file) :
  (<[backup_path := f]> (delete existing_model files)) !! dest_path = None.
Proof.
  rewrite lookup_insert_ne
    by (intros H; apply String.eqb_eq in H; discriminate).
  apply lookup_delete_eq.
Qed.

(** X16: when an existing model has been moved to the backup and the
    first download then fails before its destination is opened (no
    connection, error status, unusable length header), the script ends
    with status 1 after a single request, and there is no file at
    models/trocr.onnx any more: the old model is only at the backup
    path. *)
Theorem early_failure_leaves_no_model (net : network)
  (files : gmap string file) (f : file) :
  files !! models_dir = None ->
  files !! existing_model = Some f ->
  fails_early (net onnx_url) = true ->
  fst (script net files) = Ok 1%Z
  /\ fs (snd (script net files)) !! dest_path = None
  /\ fs (snd (script net files)) !! backup_path = Some f
  /\ gets (log (snd (script net files))) = [onnx_url].
Proof.
  intros Hd Hm Hearly. unfold script.
  rewrite (main_after_preamble net _ _ (preamble_with_model files f Hd Hm)).
  rewrite after_preamble_unfold, downloads_unfold. cbn [fs log].
  set (w0 := World _ (_ ++ [Print (DownloadingFrom onnx_url)])).
  pose proof (download_file_run net onnx_url dest_path w0) as R.
  destruct (download_file net onnx_url dest_path w0) as [res w1].
  cbn [fst snd] in R.
  inversion R as [ Hn | r Hn Hs | r Hn Hs Hh | r f' Hn Hs Hh Hf Hw
                 | r T rd evs Hn Hs HT Hop Hevs Hprog Hres Hw' ];
    subst res w1.
  1-3: cbn [fst snd fs log w0]; repeat split;
       [apply dest_absent_after_backup | apply lookup_insert_eq].
  - cbn [fs w0] in Hf. rewrite dest_absent_after_backup in Hf. discriminate.
  - exfalso. rewrite Hn in Hearly. cbn [fails_early] in Hearly.
    rewrite Hs in Hearly. cbn [negb orb] in Hearly.
    destruct (header r); cbn [header_int] in HT; discriminate.
Qed.

Lemma early_failure_leaves_no_model_witness :
  fst (script offline ({[dest_path := old_file]})) = Ok 1%Z
  /\ fs (snd (script offline ({[dest_path := old_file]}))) !! dest_path = None
  /\ fs (snd (script offline ({[dest_path := old_file]}))) !! backup_path
     = Some old_file
  /\ gets (log (snd (script offline ({[dest_path := old_file]}))))
     = [onnx_url].
Proof.
  apply (early_failure_leaves_no_model offline ({[dest_path := old_file]})
           old_file).
  - vm_compute. reflexivity.
  - vm_compute. reflexivity.
  - reflexivity.
Defined.

Lemma script_keeps_backup (net : network) (files : gmap string file)
  (g : file) :
  files !! models_dir = None -> files !! existing_model = Some g ->
  fs (snd (script net files)) !! backup_path = Some g.
Proof.
  intros Hd Hm. unfold script.
  rewrite (main_after_preamble net _ _ (preamble_with_model files g Hd Hm)).
  destruct (footprint_after_preamble net
              (World (<[backup_path := g]> (delete existing_model files))
                 [Print Banner; Mkdir models_dir;
                  Print (BackingUp backup_path);
                  Rename existing_model backup_path;
                  Print Announce; Print Option1; Print Option2;
                  Print Choosing]))
    as (evs & _ & _ & Hfs).
  rewrite Hfs by apply paths_distinct. apply lookup_insert_eq.
Qed.

Lemma script_keeps_models_dir (net : network) (files : gmap string file) :
  files !! models_dir = None ->
  fs (snd (script net files)) !! models_dir = None.
Proof.
  intros Hd. unfold script.
  assert (~ targets models_dir) as Hnt
      by (intros [H | H]; apply String.eqb_eq in H; discriminate).
  destruct (files !! existing_model) as [g|] eqn:Hm.
  - rewrite (main_after_preamble net _ _ (preamble_with_model files g Hd Hm)).
    destruct (footprint_after_preamble net
                (World (<[backup_path := g]> (delete existing_model files))
                   [Print Banner; Mkdir models_dir;
                    Print (BackingUp backup_path);
                    Rename existing_model backup_path;
                    Print Announce; Print Option1; Print Option2;
                    Print Choosing]))
      as (evs & _ & _ & Hfs).
    rewrite (Hfs _ Hnt). cbn [fs].
    rewrite lookup_insert_ne
      by (intros H; apply String.eqb_eq in H; discriminate).
    rewrite lookup_delete_ne
      by (intros H; apply String.eqb_eq in H; discriminate).
    exact Hd.
  - rewrite (main_after_preamble net _ _ (preamble_without_model files Hd Hm)).
    destruct (footprint_after_preamble net
                (World files
                   [Print Banner; Mkdir models_dir;
                    Print Announce; Print Option1; Print Option2;
                    Print Choosing]))
      as (evs & _ & _ & Hfs).
    now rewrite (Hfs _ Hnt).
Qed.

Lemma downloads_dest (net : network) (w : world) (r : response) :
  fs w !! dest_path = None ->
  net onnx_url = Reply r -> status_ok r = true -> header r <> Malformed ->
  fs (snd (downloads net w)) !! dest_path
  = Some (File true true (concat (chunks r))).
Proof.
  intros Hfree Hnet Hst Hh. rewrite downloads_unfold.
  set (w0 := World (fs w) _).
  pose proof (download_file_run net onnx_url dest_path w0) as R.
  destruct (download_file net onnx_url dest_path w0) as [res w1].
  cbn [fst snd] in R.
  inversion R as [ Hn | r' Hn Hs | r' Hn Hs Hh' | r' f' Hn Hs Hh' Hf Hw
                 | r' T rd evs Hn Hs HT Hop Hevs Hprog Hres Hw' ];
    try (rewrite Hnet in Hn; first [discriminate | injection Hn as <-]);
    try congruence.
  - cbn [fs w0] in Hf. congruence.
  - cbn [fs w0] in Hop. rewrite Hfree in Hop. subst rd.
    set (fs1 := <[dest_path := File true true (concat (chunks r))]> (fs w0)).
    assert (fs1 !! dest_path = Some (File true true (concat (chunks r))))
      as Hdest by apply lookup_insert_eq.
    destruct (ending r); [|exact Hdest].
    cbn [fs log]. fold fs1. rewrite Hdest.
    set (w1b := World fs1 _).
    pose proof (download_file_run net encoder_url encoder_path w1b) as R2.
    assert (fs (snd (download_file net encoder_url encoder_path w1b))
              !! dest_path = Some (File true true (concat (chunks r))))
      as Hkept.
    { rewrite (download_run_frame _ _ _ _ _ _ dest_path R2);
        [exact Hdest|].
      intros H'. apply String.eqb_eq in H'. discriminate. }
    destruct (download_file net encoder_url encoder_path w1b)
      as [[y|e] w2]; exact Hkept.
Qed.

(** X17: running the script a second time destroys the first backup:
    when a model existed and the first download of the first run got as
    far as opening its destination, the first run leaves the old model
    at the backup path, and any second run replaces it there by what the
    first run downloaded (complete or partial). *)
Theorem second_run_overwrites_backup (net net2 : network)
  (files : gmap string file) (f : file) (r : response) :
  files !! models_dir = None ->
  files !! existing_model = Some f ->
  net onnx_url = Reply r ->
  status_ok r = true ->
  header r <> Malformed ->
  let after1 := fs (snd (script net files)) in
  let after2 := fs (snd (script net2 after1)) in
  after1 !! backup_path = Some f
  /\ after1 !! dest_path = Some (File true true (concat (chunks r)))
  /\ after2 !! backup_path = Some (File true true (concat (chunks r))).
Proof.
  intros Hd Hm Hnet Hst Hh after1 after2.
  assert (after1 !! dest_path = Some (File true true (concat (chunks r))))
    as Hdest.
  { unfold after1, script.
    rewrite (main_after_preamble net _ _ (preamble_with_model files f Hd Hm)).
    rewrite after_preamble_unfold.
    pose proof (downloads_dest net
                  (World (<[backup_path := f]> (delete existing_model files))
                     [Print Banner; Mkdir models_dir;
                      Print (BackingUp backup_path);
                      Rename existing_model backup_path;
                      Print Announce; Print Option1; Print Option2;
                      Print Choosing]) r
                  (dest_absent_after_backup files f) Hnet Hst Hh) as Hdl.
    destruct (downloads net _) as [[[]|e] w2]; exact Hdl. }
  split; [now apply script_keeps_backup|]. split; [exact Hdest|].
  apply script_keeps_backup; [|exact Hdest].
  now apply script_keeps_models_dir.
Qed.

Lemma second_run_overwrites_backup_witness :
  let after1 := fs (snd (script breaks ({[dest_path := old_file]}))) in
  let after2 := fs (snd (script offline after1)) in
  after1 !! backup_path = Some old_file
  /\ after1 !! dest_path = Some (File true true (concat [[x01; x02; x03]]))
  /\ after2 !! backup_path = Some (File true true (concat [[x01; x02; x03]])).
Proof.
  apply (second_run_overwrites_backup breaks offline
           ({[dest_path := old_file]}) old_file
           (Response true (Length 4) [[x01; x02; x03]] Broken)).
  - vm_compute. reflexivity.
  - vm_compute. reflexivity.
  - reflexivity.
  - reflexivity.
  - discriminate.
Defined.

Lemma preamble_no_request (files : gmap string file) (w1 : world) :
  preamble (World files []) = (Ok tt, w1) -> gets (log w1) = [].
Proof.
  intros H.
  destruct (files !! models_dir) as [d|] eqn:Hd.
  { rewrite (preamble_blocked files d Hd) in H. discriminate. }
  destruct (files !! existing_model) as [g|] eqn:Hm.
  - rewrite (preamble_with_model files g Hd Hm) in H.
    injection H as <-. reflexivity.
  - rewrite (preamble_without_model files Hd Hm) in H.
    injection H as <-. reflexivity.
Qed.

Lemma download_gets (net : network) (url dest : string) (w : world) :
  gets (log (snd (download_file net url dest w))) = gets (log w) ++ [url].
Proof.
  destruct (download_run_events _ _ _ _ _ _ (download_file_run net url dest w))
    as (evs & Hl & Hg & _).
  rewrite Hl, gets_app. change (gets (Get url :: evs)) with (url :: gets evs).
  now rewrite Hg.
Qed.

(** X18: the script never asks twice for the same URL and never asks out
    of order: the requests of a run are none at all (the mkdir failed),
    the model URL alone (the first download failed), or the model URL
    followed by the encoder URL; a run that ends with status 0 has made
    both. *)
Theorem requests_of_a_run (net : network) (files : gmap string file) :
  let asked := gets (log (snd (script net files))) in
  (asked = [] \/ asked = [onnx_url] \/ asked = [onnx_url; encoder_url])
  /\ (fst (script net files) = Ok 0%Z -> asked = [onnx_url; encoder_url])
  /\ (asked = [] -> fst (script net files) = Raise FileExistsError).
Proof.
  cbv zeta. unfold script.
  destruct (preamble (World files [])) as [[[]|e] w1] eqn:Hpre.
  - pose proof (preamble_no_request files w1 Hpre) as Hg1.
    rewrite (main_after_preamble net _ w1 Hpre).
    rewrite after_preamble_unfold, downloads_unfold.
    set (w0 := World (fs w1) _).
    assert (gets (log w0) = []) as Hg0
        by (unfold w0; cbn [log]; rewrite gets_app, Hg1; reflexivity).
    pose proof (download_gets net onnx_url dest_path w0) as Hga.
    rewrite Hg0 in Hga. cbn [app] in Hga.
    destruct (download_file net onnx_url dest_path w0) as [[x|e] wa];
      cbn [fst snd] in *.
    + destruct (fs wa !! dest_path) as [g|].
      * set (wb := World (fs wa) _).
        assert (gets (log wb) = [onnx_url]) as Hgb
            by (unfold wb; cbn [log]; rewrite gets_app, Hga; reflexivity).
        pose proof (download_gets net encoder_url encoder_path wb) as Hgc.
        rewrite Hgb in Hgc. cbn [app] in Hgc.
        destruct (download_file net encoder_url encoder_path wb)
          as [[y|e] wc]; cbn [fst snd log] in *;
          rewrite ?gets_app, Hgc; cbn [gets flat_map app];
          repeat split; auto; discriminate.
      * cbn [fst snd log]. rewrite !gets_app, Hga. cbn [gets flat_map app].
        repeat split; auto; discriminate.
    + cbn [log]. rewrite gets_app, Hga. cbn [gets flat_map app].
      repeat split; auto; discriminate.
  - rewrite (main_blocked net _ _ _ Hpre). cbn [fst snd].
    destruct (files !! models_dir) as [d|] eqn:Hd.
    + rewrite (preamble_blocked files d Hd) in Hpre.
      injection Hpre as <- <-. repeat split; auto; discriminate.
    + destruct (preamble_succeeds files Hd) as [w' Hw'].
      rewrite Hw' in Hpre. discriminate.
Qed.

(** X19: a run that ends with status 0 has written both model files:
    both replies were complete, models/trocr.onnx holds the body of the
    first and models/trocr_encoder.onnx the body of the second. *)
Theorem exit_zero_means_both_files (net : network)
  (files : gmap string file) :
  fst (script net files) = Ok 0%Z ->
  exists r1 r2 f1 f2,
    net onnx_url = Reply r1 /\ ending r1 = Complete
    /\ net encoder_url = Reply r2 /\ ending r2 = Complete
    /\ fs (snd (script net files)) !! dest_path = Some f1
    /\ data f1 = concat (chunks r1)
    /\ fs (snd (script net files)) !! encoder_path = Some f2
    /\ data f2 = concat (chunks r2).
Proof.
  unfold script.
  destruct (preamble (World files [])) as [[[]|e] w1] eqn:Hpre;
    [|rewrite (main_blocked net _ _ _ Hpre); discriminate].
  rewrite (main_after_preamble net _ w1 Hpre).
  rewrite after_preamble_unfold, downloads_unfold.
  set (w0 := World (fs w1) _).
  pose proof (download_file_run net onnx_url dest_path w0) as R1.
  destruct (download_file net onnx_url dest_path w0) as [[x|e] wa];
    [|discriminate].
  cbn [fst snd] in R1.
  inversion R1 as [ | | | | r1 T1 rd1 evs1 Hn1 Hs1 HT1 Hop1 Hev1 Hpr1 Hres1 Hwa ].
  destruct (ending r1) eqn:He1; [|discriminate].
  cbn [fs]. rewrite lookup_insert_eq.
  set (wb := World _ (_ ++ [Print (Downloaded dest_path); _; _])).
  pose proof (download_file_run net encoder_url encoder_path wb) as R2.
  destruct (download_file net encoder_url encoder_path wb) as [[y|e] wc];
    [|discriminate].
  cbn [fst snd] in R2. intros _.
  inversion R2 as [ | | | | r2 T2 rd2 evs2 Hn2 Hs2 HT2 Hop2 Hev2 Hpr2 Hres2 Hwc ].
  destruct (ending r2) eqn:He2; [|discriminate].
  exists r1, r2, (File rd1 true (concat (chunks r1))),
         (File rd2 true (concat (chunks r2))).
  cbn [fst snd fs data wb].
  repeat split; try assumption.
  - rewrite lookup_insert_ne
      by (intros H'; apply String.eqb_eq in H'; discriminate).
    apply lookup_insert_eq.
  - apply lookup_insert_eq.
Qed.

Lemma exit_zero_means_both_files_witness :
  exists r1 r2 f1 f2,
    honest onnx_url = Reply r1 /\ ending r1 = Complete
    /\ honest encoder_url = Reply r2 /\ ending r2 = Complete
    /\ fs (snd (script honest ∅)) !! dest_path = Some f1
    /\ data f1 = concat (chunks r1)
    /\ fs (snd (script honest ∅)) !! encoder_path = Some f2
    /\ data f2 = concat (chunks r2).
Proof.
  apply (exit_zero_means_both_files honest ∅). vm_compute. reflexivity.
Defined.

(** X20: on a fresh install nothing is renamed: when there is no
    models/trocr.onnx as the script starts, its log holds no rename and
    whatever is at the backup path stays as it was. *)
Theorem no_model_no_rename (net : network) (files : gmap string file) :
  files !! models_dir = None ->
  files !! existing_model = None ->
  forallb no_rename (log (snd (script net files))) = true
  /\ fs (snd (script net files)) !! backup_path = files !! backup_path.
Proof.
  intros Hd Hm. unfold script.
  rewrite (main_after_preamble net _ _ (preamble_without_model files Hd Hm)).
  destruct (footprint_after_preamble net
              (World files
                 [Print Banner; Mkdir models_dir;
                  Print Announce; Print Option1; Print Option2;
                  Print Choosing]))
    as (evs & Hlog & Hnr & Hfs).
  split.
  - rewrite Hlog. cbn [log]. rewrite forallb_app, Hnr. reflexivity.
  - rewrite Hfs by apply paths_distinct. reflexivity.
Qed.

Lemma no_model_no_rename_witness :
  forallb no_rename
    (log (snd (script honest ({[backup_path := older_file]})))) = true
  /\ fs (snd (script honest ({[backup_path := older_file]}))) !! backup_path
     = ({[backup_path := older_file]} : gmap string file) !! backup_path.
Proof.
  apply (no_model_no_rename honest ({[backup_path := older_file]}));
    vm_compute; reflexivity.
Defined.

(** X21: the script leaves the other files alone: whatever the network
    does and however the run ends, every path other than the directory
    models itself (which the mkdir may create), the two destinations and
    the backup path holds after the run what it held before. *)
Theorem script_frame (net : network) (files : gmap string file)
  (q : string) :
  q <> models_dir ->
  q <> dest_path -> q <> encoder_path -> q <> backup_path ->
  fs (snd (script net files)) !! q = files !! q.
Proof.
  intros _ Hq1 Hq2 Hq3. unfold script.
  assert (~ targets q) as Hnt by (intros [H | H]; congruence).
  destruct (files !! models_dir) as [d|] eqn:Hd.
  { now rewrite (main_blocked net _ _ _ (preamble_blocked files d Hd)). }
  destruct (files !! existing_model) as [g|] eqn:Hm.
  - rewrite (main_after_preamble net _ _ (preamble_with_model files g Hd Hm)).
    destruct (footprint_after_preamble net
                (World (<[backup_path := g]> (delete existing_model files))
                   [Print Banner; Mkdir models_dir;
                    Print (BackingUp backup_path);
                    Rename existing_model backup_path;
                    Print Announce; Print Option1; Print Option2;
                    Print Choosing]))
      as (evs & _ & _ & Hfs).
    rewrite (Hfs _ Hnt). cbn [fs].
    rewrite lookup_insert_ne by congruence.
    now rewrite lookup_delete_ne by (unfold existing_model, dest_path in *;
                                     congruence).
  - rewrite (main_after_preamble net _ _ (preamble_without_model files Hd Hm)).
    destruct (footprint_after_preamble net
                (World files
                   [Print Banner; Mkdir models_dir;
                    Print Announce; Print Option1; Print Option2;
                    Print Choosing]))
      as (evs & _ & _ & Hfs).
    now rewrite (Hfs _ Hnt).
Qed.

Lemma script_frame_witness :
  fs (snd (script honest ({[dest_path := old_file;
                            other_path := older_file]}))) !! other_path
  = ({[dest_path := old_file; other_path := older_file]}
       : gmap string file) !! other_path.
Proof.
  apply (script_frame honest
           ({[dest_path := old_file; other_path := older_file]}) other_path);
    intros H; apply String.eqb_eq in H; discriminate.
Defined.

End DownloadMore.
